(** * TCP/IP layer demonstration: Responder (server) and Requester (client)

    A shallow embedding of the two C programs of the repository, the server
    ([src/unnamed/part_000]) and the client ([src/client.c]).

    - [char] arrays are lists of bytes; a C string is the run of bytes before
      the first NUL of such a list.
    - Every call that talks to the operating system is recorded, with its
      arguments and with the value it returned, in the trace of the run.  The
      value returned is not computed: it is an input of the model (a field of
      an environment record), so every theorem quantifies over everything
      the kernel and the peer may answer.
    - [exit] stops a run early: a computation is a trace together with either
      a value or an exit code.  A run of the server may also end in the
      signal of a broken connection; that is added to the loop in [Sigpipe].
    - Of the text written to standard output only the lines that carry data
      are kept; the fixed narrative lines and the lines built from the
      timestamp and the peer address do not take part in any exchange. *)

From Stdlib Require Import List ZArith Lia Bool.
From Stdlib Require Import Strings.Byte.
From Stdlib Require Strings.String.
From Stdlib Require Import Decimal DecimalString.
Import ListNotations.
Import String.StringSyntax.
Delimit Scope string_scope with string.

Local Open Scope Z_scope.

(** ** The C library as the two programs use it *)

Module C.

(** A string literal of the source, as the bytes the compiler stores
    (without its terminator). *)
Definition lit (s : String.string) : list byte := String.list_byte_of_string s.
Arguments lit s%_string.

Definition NUL : byte := x00.

Definition is_nul (b : byte) : bool := Byte.eqb b NUL.

(** The characters of the C string that starts a region of memory: every
    byte before the first NUL.  A region without NUL is returned whole: the
    caller decides what lies behind it. *)
Fixpoint cstr (mem : list byte) : list byte :=
  match mem with
  | [] => []
  | b :: rest => if is_nul b then [] else b :: cstr rest
  end.

Definition strlen (mem : list byte) : nat := length (cstr mem).

(** Does the region hold a terminator?  When it does not, a string function
    reads behind its end. *)
Definition terminated (mem : list byte) : bool := existsb is_nul mem.

(** A text: bytes without NUL among them. *)
Definition no_nul (s : list byte) : bool :=
  forallb (fun b => negb (is_nul b)) s.

Definition memset (c : byte) (n : nat) : list byte := repeat c n.

(** [strncpy(dst, src, n)]: at most [n] characters of the string [src]; when
    the string is shorter the rest of the [n] bytes is filled with NUL; no
    terminator is added when it is not.  Bytes of [dst] from [n] on are
    left as they were. *)
Definition strncpy (dst src : list byte) (n : nat) : list byte :=
  let s := firstn n (cstr src) in
  s ++ repeat NUL (n - length s) ++ skipn n dst.

(** [a[i] = c] *)
Fixpoint store (a : list byte) (i : nat) (c : byte) : list byte :=
  match a, i with
  | [], _ => []
  | _ :: rest, O => c :: rest
  | b :: rest, S j => b :: store rest j c
  end.

(** The bytes a read or a receive call puts at the start of a buffer. *)
Definition fill (a data : list byte) : list byte :=
  data ++ skipn (length data) a.

(** A value of type [int] (32 bits, two's complement) from an integer. *)
Definition to_int (z : Z) : Z := (z + 2 ^ 31) mod 2 ^ 32 - 2 ^ 31.

(** [%d], [%zu] and [%zd] of [printf]. *)
Definition decimal (z : Z) : list byte :=
  lit (NilZero.string_of_int (Z.to_int z)).

(** [snprintf(buf, size, ...)] given the text the format expands to: at
    most [size - 1] characters, then the terminator.  The result is the
    part of [buf] that the call writes. *)
Definition snprintf (size : nat) (text : list byte) : list byte :=
  firstn (size - 1) text ++ [NUL].

(** An automatic array of [n] bytes declared without initialiser: it holds
    whatever the stack held, [junk], which is an input of the model. *)
Definition auto_array (n : nat) (junk : list byte) : list byte :=
  firstn n (junk ++ repeat xff n).

(** [%s] given an array: the characters up to the first NUL, looked for in
    the array and, when the array holds none, in the memory [behind] it.
    The C standard gives no meaning to the second case; the model makes
    the memory behind the array an input, so that nothing is assumed
    about it. *)
Definition string_at (array behind : list byte) : list byte :=
  cstr (array ++ behind).

End C.

(** ** Runs: system calls, output and exit *)

(** Lines of standard output that carry data, named after their label. *)
Inductive line : Type :=
| LMessage (text : list byte)        (* "  Message: %s", "  Message: '%s'" *)
| LLength (n : Z)                    (* "  Length: %d bytes" *)
| LDataSize (n : nat)                (* "  Data Size: %zu bytes" *)
| LDataLength (n : nat)              (* "      Data Length: %zu bytes" *)
| LSent (n : Z)                      (* "  Sent: %zd bytes" (server) *)
| LSentMarked (n : Z)                (* "      <check mark> Sent: %zd bytes" (client) *)
| LReceived (n : Z)                  (* "  Received: %zd bytes", both programs *)
| LResponse (text : list byte)       (* "Response message: %s" *)
| LUserInput (text : list byte)      (* "  User Input: '%s'" *)
| LMessageLength (n : nat)           (* "  Message Length: %zu bytes" *)
| LResponseLength (n : nat)          (* "  Length: %zu bytes" (client) *)
| LClosed.                           (* "    Socket closed, connection terminated" *)

(** What a run does, in order.  A system call is recorded with the value
    it returned. *)
Inductive event : Type :=
| Socket (ret : Z)
| Setsockopt (fd : Z)
| Bind (fd port ret : Z)
| Listen (fd backlog ret : Z)
| Accept (fd ret : Z)
| Connect (fd ret : Z)
| Recv (fd : Z) (len : nat) (ret : Z)
| Send (fd : Z) (data : list byte) (ret : Z)
| Close (fd : Z)
| Perror (msg : String.string)
| Stdout (l : line)
| ExitCall (code : Z).

Arguments Perror msg%_string.

Definition trace := list event.

Inductive result (A : Type) : Type :=
| Done (a : A)
| Exited (code : Z).
Arguments Done {A} a.
Arguments Exited {A} code.

(** A computation: what it did, and how it ended. *)
Definition IO (A : Type) : Type := (trace * result A)%type.

Definition ret {A} (a : A) : IO A := ([], Done a).

Definition bind {A B} (m : IO A) (k : A -> IO B) : IO B :=
  match m with
  | (t, Done a) => let (t', r) := k a in (t ++ t', r)
  | (t, Exited c) => (t, Exited c)
  end.

Definition emit (e : event) : IO unit := ([e], Done tt).

(** [exit(code)] *)
Definition exit {A} (code : Z) : IO A := ([ExitCall code], Exited code).

Declare Scope io_scope.
Delimit Scope io_scope with io.
Notation "x <- m ;; k" := (bind m (fun x => k))
  (at level 61, m at next level, right associativity) : io_scope.
Notation "m ;; k" := (bind m (fun _ => k))
  (at level 61, right associativity) : io_scope.
Local Open Scope io_scope.

Definition printf (l : line) : IO unit := emit (Stdout l).
Definition perror (msg : String.string) : IO unit := emit (Perror msg).
Arguments perror msg%_string.
Definition close (fd : Z) : IO unit := emit (Close fd).

(** What a [recv] call may find: an error (the call returns -1), or the bytes
    that have arrived, none when the peer has closed its side. *)
Inductive arrival : Type :=
| RecvError
| Arrived (data : list byte).

(** [recv(fd, buffer, len, 0)]: at most [len] of the bytes that have arrived
    are put at the start of the buffer; the call returns their count. *)
Definition recv (fd : Z) (buffer : list byte) (len : nat) (a : arrival)
  : IO (Z * list byte) :=
  match a with
  | RecvError => emit (Recv fd len (-1)) ;; ret (-1, buffer)
  | Arrived data =>
      let got := firstn len data in
      let n := Z.of_nat (length got) in
      emit (Recv fd len n) ;; ret (n, C.fill buffer got)
  end.

(** [send(fd, data, length, 0)] when the call returns: the first [length]
    bytes of [data] are offered; the kernel answers with a count or -1.
    The call that does not return, because the connection is broken and the
    kernel raises SIGPIPE, is the subject of [Sigpipe] below. *)
Definition send (fd : Z) (data : list byte) (length : nat) (answer : Z)
  : IO Z :=
  emit (Send fd (firstn length data) answer) ;; ret answer.

Definition socket (answer : Z) : IO Z := emit (Socket answer) ;; ret answer.

Definition setsockopt (fd : Z) : IO unit := emit (Setsockopt fd).

Definition bind_port (fd port answer : Z) : IO Z :=
  emit (Bind fd port answer) ;; ret answer.

Definition listen (fd backlog answer : Z) : IO Z :=
  emit (Listen fd backlog answer) ;; ret answer.

Definition accept (fd answer : Z) : IO Z :=
  emit (Accept fd answer) ;; ret answer.

Definition connect (fd answer : Z) : IO Z :=
  emit (Connect fd answer) ;; ret answer.

(** The exit status of a finished run of [main]: the value it returned or
    the argument of [exit]. *)
Definition exit_status (r : IO Z) : Z :=
  match snd r with
  | Done c => c
  | Exited c => c
  end.

(** The system calls of a trace, without what was printed. *)
Definition is_call (e : event) : bool :=
  match e with
  | Perror _ | Stdout _ | ExitCall _ => false
  | _ => true
  end.

Definition calls (t : trace) : trace := filter is_call t.

(** What a trace wrote to standard error. *)
Definition stderr (t : trace) : list String.string :=
  flat_map (fun e => match e with Perror m => [m] | _ => [] end) t.

(** What a trace wrote to standard output. *)
Definition stdout (t : trace) : list line :=
  flat_map (fun e => match e with Stdout l => [l] | _ => [] end) t.

(** ** The server *)

Module Server.

Definition PORT : Z := 9999.
Definition BUFFER_SIZE : nat := 256.

(** [ApplicationMessage].  The fields [timestamp] and [client_ip] are only
    printed and are left out. *)
Record ApplicationMessage : Type := {
  message : list byte;          (* char message[200] *)
  message_length : Z            (* int *)
}.

Definition MESSAGE_SIZE : nat := 200.   (* sizeof(msg.message) *)

(** What the environment contributes to one turn of the accept loop. *)
Record connection : Type := {
  accepted : Z;                 (* the value [accept] returns *)
  arrives : arrival;            (* what [recv] finds *)
  junk : list byte;             (* the stack where [msg.message] is put *)
  behind : list byte;           (* the memory behind [msg.message] *)
  sent : Z                      (* the value [send] returns *)
}.

Definition process_message (msg : ApplicationMessage) (behind : list byte)
  : IO unit :=
  printf (LMessage (C.string_at (message msg) behind)) ;;
  printf (LLength (message_length msg)).

Definition send_via_tcp (socket_fd : Z) (data : list byte) (length : nat)
           (answer : Z) : IO unit :=
  printf (LDataSize length) ;;
  sent <- send socket_fd data length answer ;;
  printf (LSent sent).

Definition receive_via_tcp (socket_fd : Z) (buffer : list byte)
           (max_length : nat) (a : arrival) : IO (list byte) :=
  r <- recv socket_fd buffer (max_length - 1) a ;;
  let (received, buffer) := r : Z * list byte in
  if received >? 0 then
    let buffer := C.store buffer (Z.to_nat received) C.NUL in
    printf (LReceived received) ;;
    ret buffer
  else ret buffer.

(** The text the format of the response expands to. *)
Definition response_text (msg : ApplicationMessage) (behind : list byte)
  : list byte :=
  C.lit "SERVER ACK: Received '" ++ C.string_at (message msg) behind
    ++ C.lit "' (" ++ C.decimal (message_length msg) ++ C.lit " bytes)".

(** One turn of [while (1)] in [main]. *)
Definition serve (server_socket : Z) (c : connection) : IO unit :=
  client_socket <- accept server_socket (accepted c) ;;
  if client_socket <? 0 then
    perror "Accept failed"          (* continue *)
  else
    let buffer := C.memset C.NUL BUFFER_SIZE in
    buffer <- receive_via_tcp client_socket buffer BUFFER_SIZE (arrives c) ;;
    let msg_message := C.auto_array MESSAGE_SIZE (junk c) in
    let msg_message := C.strncpy msg_message buffer (MESSAGE_SIZE - 1) in
    let msg := {| message := msg_message;
                  message_length := C.to_int (Z.of_nat (C.strlen buffer)) |} in
    process_message msg (behind c) ;;
    let response := C.snprintf BUFFER_SIZE (response_text msg (behind c)) in
    printf (LResponse (C.cstr response)) ;;
    send_via_tcp client_socket response (C.strlen response) (sent c) ;;
    close client_socket ;;
    printf LClosed.

(** The answers of the kernel while the server starts. *)
Record startup : Type := {
  socket_ret : Z;
  bind_ret : Z;
  listen_ret : Z
}.

(** [main] up to the loop: the listening socket. *)
Definition start (s : startup) : IO Z :=
  server_socket <- socket (socket_ret s) ;;
  if server_socket <? 0 then
    perror "Socket creation failed" ;; exit 1
  else
    setsockopt server_socket ;;
    b <- bind_port server_socket PORT (bind_ret s) ;;
    if b <? 0 then
      perror "Bind failed" ;; exit 1
    else
      l <- listen server_socket 5 (listen_ret s) ;;
      if l <? 0 then
        perror "Listen failed" ;; exit 1
      else ret server_socket.

(** The loop [while (1)], as far as the connections given go.  The result
    [Done tt] says that the loop is at its head again, about to call
    [accept]; the statements behind the loop cannot be reached. *)
Fixpoint accept_loop (server_socket : Z) (cs : list connection) : IO unit :=
  match cs with
  | [] => ret tt
  | c :: rest => serve server_socket c ;; accept_loop server_socket rest
  end.

Definition main (s : startup) (cs : list connection) : IO unit :=
  server_socket <- start s ;;
  accept_loop server_socket cs.

(** *** Names for what a turn of the loop computes on the way *)

(** The bytes [recv] hands over: at most [BUFFER_SIZE - 1] of those that
    arrived. *)
Definition delivered (data : list byte) : list byte :=
  firstn (BUFFER_SIZE - 1) data.

(** The message as the server takes it: the string in [buffer] once
    [receive_via_tcp] has returned. *)
Definition taken (a : arrival) : list byte :=
  match snd (receive_via_tcp 0 (C.memset C.NUL BUFFER_SIZE) BUFFER_SIZE a) with
  | Done buffer => C.cstr buffer
  | Exited _ => []
  end.

(** [msg.message[199]]: the one byte of the field that [strncpy] with a
    count of 199 does not write. *)
Definition last_byte (junk : list byte) : byte :=
  nth (MESSAGE_SIZE - 1) (C.auto_array MESSAGE_SIZE junk) xff.

(** [msg.message] after [strncpy(msg.message, buffer, 199)], for the
    string [m] in [buffer]. *)
Definition message_field (m junk : list byte) : list byte :=
  C.strncpy (C.auto_array MESSAGE_SIZE junk) m (MESSAGE_SIZE - 1).

(** What [%s] makes of [msg.message]. *)
Definition echoed (m junk behind : list byte) : list byte :=
  C.string_at (message_field m junk) behind.

(** The acknowledgment: the string [snprintf] leaves in [response]. *)
Definition acknowledgment (m junk behind : list byte) : list byte :=
  firstn (BUFFER_SIZE - 1)
    (C.lit "SERVER ACK: Received '" ++ echoed m junk behind
       ++ C.lit "' (" ++ C.decimal (Z.of_nat (length m)) ++ C.lit " bytes)").

(** The value [recv] returned in a turn. *)
Definition received (a : arrival) : Z :=
  match a with
  | RecvError => -1
  | Arrived data => Z.of_nat (length (delivered data))
  end.

End Server.

(** ** The client *)

Module Client.

Definition SERVER_PORT : Z := 9999.
Definition BUFFER_SIZE : nat := 256.

Definition DEFAULT_MESSAGE : list byte := C.lit "Hello from TCP Client!".

(** What the environment contributes to a run of the client. *)
Record environment : Type := {
  socket_ret : Z;               (* the value [socket] returns *)
  connect_ret : Z;              (* the value [connect] returns *)
  sent : Z;                     (* the value [send] returns *)
  arrives : arrival;            (* what [recv] finds *)
  junk : list byte              (* the stack where [app_buffer] is put *)
}.

Definition prepare_message (user_input buffer : list byte) (size : nat)
  : IO (list byte) :=
  printf (LUserInput (C.cstr user_input)) ;;
  printf (LMessageLength (C.strlen user_input)) ;;
  let buffer := C.strncpy buffer user_input (size - 1) in
  let buffer := C.store buffer (size - 1) C.NUL in
  ret buffer.

Definition establish_tcp_connection (e : environment) : IO Z :=
  socket_fd <- socket (socket_ret e) ;;
  if socket_fd <? 0 then
    perror "Socket creation failed" ;; exit 1
  else
    c <- connect socket_fd (connect_ret e) ;;
    if c <? 0 then
      perror "Connection failed" ;; exit 1
    else ret socket_fd.

Definition send_via_tcp (socket_fd : Z) (data : list byte) (answer : Z)
  : IO unit :=
  printf (LDataLength (C.strlen data)) ;;
  sent <- send socket_fd data (C.strlen data) answer ;;
  if sent >? 0 then printf (LSentMarked sent) else ret tt.

Definition receive_via_tcp (socket_fd : Z) (buffer : list byte)
           (size : nat) (a : arrival) : IO (list byte) :=
  r <- recv socket_fd buffer (size - 1) a ;;
  let (received, buffer) := r : Z * list byte in
  if received >? 0 then
    let buffer := C.store buffer (Z.to_nat received) C.NUL in
    printf (LReceived received) ;;
    ret buffer
  else ret buffer.

Definition display_response (buffer : list byte) : IO unit :=
  printf (LMessage (C.cstr buffer)) ;;
  printf (LResponseLength (C.strlen buffer)).

(** [(argc > 1) ? argv[1] : "Hello from TCP Client!"], with [argc] the
    length of [argv]. *)
Definition choose_message (argv : list (list byte)) : list byte :=
  if Z.of_nat (length argv) >? 1 then nth 1 argv [] else DEFAULT_MESSAGE.

(** [main]; its value is the value it returns. *)
Definition main (argv : list (list byte)) (e : environment) : IO Z :=
  let message := choose_message argv in
  let app_buffer := C.auto_array BUFFER_SIZE (junk e) in
  app_buffer <- prepare_message message app_buffer BUFFER_SIZE ;;
  socket_fd <- establish_tcp_connection e ;;
  send_via_tcp socket_fd app_buffer (sent e) ;;
  let response := C.memset C.NUL BUFFER_SIZE in
  response <- receive_via_tcp socket_fd response BUFFER_SIZE (arrives e) ;;
  display_response response ;;
  close socket_fd ;;
  ret 0.

(** The bytes the client offers to [send], given its arguments: the
    string that [prepare_message] leaves in [app_buffer]. *)
Definition request (argv : list (list byte)) (stack : list byte) : list byte :=
  let app_buffer := C.auto_array BUFFER_SIZE stack in
  let app_buffer := C.strncpy app_buffer (choose_message argv) (BUFFER_SIZE - 1) in
  let app_buffer := C.store app_buffer (BUFFER_SIZE - 1) C.NUL in
  firstn (C.strlen app_buffer) app_buffer.

End Client.

(** ** One exchange over a network that delivers everything at once

    The client is run against one turn of the server's loop: the server's
    [recv] finds exactly what the client offered to [send], the client's
    [recv] finds exactly what the server offered, and every call succeeds and
    transfers all it was given.

    This describes the exchange of a request that is not empty.  For an
    empty request the client offers no byte to [send] and closes nothing
    before its own [recv], so the server's [recv] finds nothing and does not
    return: no exchange takes place. *)

Module Exchange.

(** The bytes offered to the first [send] of a trace. *)
Fixpoint offered (t : trace) : list byte :=
  match t with
  | [] => []
  | Send _ data _ :: _ => data
  | _ :: rest => offered rest
  end.

(** The text of the first "Message:" line of a trace. *)
Fixpoint shown (t : trace) : list byte :=
  match t with
  | [] => []
  | Stdout (LMessage text) :: _ => text
  | _ :: rest => shown rest
  end.

Definition server_turn (request junk behind : list byte) : IO unit :=
  let ack := Server.acknowledgment (Server.taken (Arrived request)) junk behind in
  Server.serve 3 {| Server.accepted := 4;
                    Server.arrives := Arrived request;
                    Server.junk := junk;
                    Server.behind := behind;
                    Server.sent := Z.of_nat (length ack) |}.

(** What the server offers to [send] for what its [recv] found. *)
Definition reply (request junk behind : list byte) : list byte :=
  offered (fst (server_turn request junk behind)).

Definition client_run (argv : list (list byte)) (reply : list byte)
  : IO Z :=
  Client.main argv {| Client.socket_ret := 3;
                      Client.connect_ret := 0;
                      Client.sent := Z.of_nat (length (Client.request argv []));
                      Client.arrives := Arrived reply;
                      Client.junk := [] |}.

(** What the client displays as the response when it is given [message]
    on its command line. *)
Definition roundtrip (message junk behind : list byte) : list byte :=
  let argv := [C.lit "client"; message] in
  let request := Client.request argv [] in
  shown (fst (client_run argv (reply request junk behind))).

End Exchange.

(** ** The system calls of a turn

    The calls of one turn of the loop, in terms of what the turn computes:
    [accept]; then, on a connection, one [recv], one [send] with the
    acknowledgment, and [close]. *)

Definition ordered_steps (server_socket : Z) (c : Server.connection) : trace :=
  let fd := Server.accepted c in
  if fd <? 0 then [Accept server_socket fd]
  else
    let m := Server.taken (Server.arrives c) in
    [Accept server_socket fd;
     Recv fd (Server.BUFFER_SIZE - 1) (Server.received (Server.arrives c));
     Send fd (Server.acknowledgment m (Server.junk c) (Server.behind c))
          (Server.sent c);
     Close fd].

(** ** The turn of the loop, written out

    What a turn does on a connection, stated without the C functions that
    compute it.  The message is the string of the bytes [recv] handed over
    (none when [recv] failed).  The acknowledgment repeats the message when
    it has fewer than 199 characters, and otherwise its first 199
    characters followed by what is found in memory from the last byte of
    [msg.message] on; the length named is that of the message; the whole is
    cut at 255 characters. *)

Definition message_read (a : arrival) : list byte :=
  match a with
  | RecvError => []
  | Arrived data => C.cstr (firstn 255 data)
  end.

Definition acknowledgment_text (m : list byte) (last : byte) (behind : list byte)
  : list byte :=
  let echo := if (length m <? 199)%nat then m
              else firstn 199 m ++ C.cstr (last :: behind) in
  firstn 255
    (C.lit "SERVER ACK: Received '" ++ echo ++ C.lit "' ("
       ++ C.decimal (Z.of_nat (length m)) ++ C.lit " bytes)").

(** The calls of a turn: one [recv] of at most 255 bytes, one [send] that is
    given the whole acknowledgment, and [close], whatever the two calls
    return. *)
Definition described_turn (server_socket : Z) (c : Server.connection) : trace :=
  let fd := Server.accepted c in
  if fd <? 0 then [Accept server_socket fd]
  else
    let m := message_read (Server.arrives c) in
    let last := nth 199 (Server.junk c ++ repeat xff 200) xff in
    [Accept server_socket fd;
     Recv fd 255 (match Server.arrives c with
                  | RecvError => -1
                  | Arrived data => Z.of_nat (length (firstn 255 data))
                  end);
     Send fd (acknowledgment_text m last (Server.behind c)) (Server.sent c);
     Close fd].

(** ** The signal of a broken connection

    Both programs call [send] with flags 0 and neither handles or ignores
    SIGPIPE.  When the peer has reset the connection, the call does not
    return a count: the kernel raises the signal and the process ends
    inside the call.  The functions above describe the turns whose [send]
    returns; here a turn may also end in that way.  What the turn did before
    the call is what it does in any case: the events of [Server.serve] up
    to its [send]. *)

Module Sigpipe.

(** How a run of the server stands. *)
Inductive status : Type :=
| Running                                  (* at the head of the loop *)
| Ended (code : Z)                         (* [exit(code)] *)
| Killed (fd : Z) (data : list byte).      (* SIGPIPE in [send(fd, data, ...)] *)

(** A connection, and whether its [send] finds the connection reset. *)
Record session : Type := {
  conn : Server.connection;
  broken : bool
}.

(** The events before the first [send] of a trace, and the arguments of
    that [send]. *)
Fixpoint cut_at_send (t : trace) : trace * option (Z * list byte) :=
  match t with
  | [] => ([], None)
  | Send fd data _ :: _ => ([], Some (fd, data))
  | e :: rest => let (before, s) := cut_at_send rest in (e :: before, s)
  end.

Definition after {A} (r : result A) : status :=
  match r with
  | Done _ => Running
  | Exited code => Ended code
  end.

(** One turn of the loop. *)
Definition turn (server_socket : Z) (x : session) : trace * status :=
  let r := Server.serve server_socket (conn x) in
  if broken x then
    match cut_at_send (fst r) with
    | (before, Some (fd, data)) => (before, Killed fd data)
    | (_, None) => (fst r, after (snd r))
    end
  else (fst r, after (snd r)).

(** The loop: a turn is taken only while the process runs. *)
Fixpoint loop (server_socket : Z) (xs : list session) : trace * status :=
  match xs with
  | [] => ([], Running)
  | x :: rest =>
      match turn server_socket x with
      | (t, Running) =>
          let (t', s) := loop server_socket rest in (t ++ t', s)
      | (t, s) => (t, s)
      end
  end.

Definition main (s : Server.startup) (xs : list session) : trace * status :=
  match Server.start s with
  | (t, Done server_socket) =>
      let (t', st) := loop server_socket xs in (t ++ t', st)
  | (t, Exited code) => (t, Ended code)
  end.

(** The turn of [x] ends in the signal: the connection was delivered and
    its [send] finds it reset. *)
Definition dies (x : session) : bool :=
  broken x && negb (Server.accepted (conn x) <? 0).

(** A session whose [send] returns. *)
Definition returning (c : Server.connection) : session :=
  {| conn := c; broken := false |}.

(** A session whose [send] raises the signal. *)
Definition resetting (c : Server.connection) : session :=
  {| conn := c; broken := true |}.

End Sigpipe.

(** A descriptor is released by a run that closes it, and by a run that
    ends in [exit]: the process is gone, and the kernel closes whatever it
    still held. *)
Definition released (fd : Z) (r : IO Z) : Prop :=
  In (Close fd) (fst r) \/ exists code, snd r = Exited code.

(** ** Concrete runs *)

Module Scenario.

(** A peer that sends HELLO; every call succeeds. *)
Definition hello : Server.connection :=
  {| Server.accepted := 4;
     Server.arrives := Arrived (C.lit "HELLO");
     Server.junk := [];
     Server.behind := [];
     Server.sent := 38 |}.

(** A peer that closes its side without sending anything. *)
Definition silent : Server.connection :=
  {| Server.accepted := 4;
     Server.arrives := Arrived [];
     Server.junk := [];
     Server.behind := [];
     Server.sent := 33 |}.

(** A peer that resets the connection: [recv] and [send] both fail. *)
Definition reset : Server.connection :=
  {| Server.accepted := 4;
     Server.arrives := RecvError;
     Server.junk := [];
     Server.behind := [];
     Server.sent := -1 |}.

(** A connection that [accept] fails to deliver. *)
Definition refused : Server.connection :=
  {| Server.accepted := -1;
     Server.arrives := RecvError;
     Server.junk := [];
     Server.behind := [];
     Server.sent := -1 |}.

(** A message of 210 letters. *)
Definition long_message : list byte := repeat "A"%byte 210.

(** The peer sends the 210 letters; the stack under [msg.message] holds
    zeros. *)
Definition oversized : Server.connection :=
  {| Server.accepted := 4;
     Server.arrives := Arrived long_message;
     Server.junk := repeat x00 200;
     Server.behind := [];
     Server.sent := 234 |}.

(** The same peer; the stack under [msg.message] holds other bytes, and so
    does the memory behind the field. *)
Definition oversized_dirty : Server.connection :=
  {| Server.accepted := 4;
     Server.arrives := Arrived long_message;
     Server.junk := repeat "#"%byte 200;
     Server.behind := C.lit "??";
     Server.sent := 237 |}.

(** Three of the five bytes of HELLO have arrived when [recv] is called, the
    peer has closed nothing, and [send] takes 10 of the bytes it is
    offered. *)
Definition partial : Server.connection :=
  {| Server.accepted := 4;
     Server.arrives := Arrived (C.lit "HEL");
     Server.junk := [];
     Server.behind := [];
     Server.sent := 10 |}.

Definition started : Server.startup :=
  {| Server.socket_ret := 3; Server.bind_ret := 0; Server.listen_ret := 0 |}.

(** A client for which every call succeeds and the reply arrives whole. *)
Definition online (reply : list byte) : Client.environment :=
  {| Client.socket_ret := 3;
     Client.connect_ret := 0;
     Client.sent := 5;
     Client.arrives := Arrived reply;
     Client.junk := [] |}.

(** A client whose connection is established and then lost: [send] and
    [recv] both fail. *)
Definition cut_off : Client.environment :=
  {| Client.socket_ret := 3;
     Client.connect_ret := 0;
     Client.sent := -1;
     Client.arrives := RecvError;
     Client.junk := [] |}.

(** A client that finds nobody listening. *)
Definition unreachable : Client.environment :=
  {| Client.socket_ret := 3;
     Client.connect_ret := -1;
     Client.sent := -1;
     Client.arrives := RecvError;
     Client.junk := [] |}.

(** A client that gets no socket. *)
Definition no_socket : Client.environment :=
  {| Client.socket_ret := -1;
     Client.connect_ret := -1;
     Client.sent := -1;
     Client.arrives := RecvError;
     Client.junk := [] |}.

(** A client whose [send] takes 3 of the 5 bytes offered. *)
Definition short_write : Client.environment :=
  {| Client.socket_ret := 3;
     Client.connect_ret := 0;
     Client.sent := 3;
     Client.arrives := Arrived (C.lit "SERVER ACK: Received 'HEL' (3 bytes)");
     Client.junk := [] |}.

Definition argv_hello : list (list byte) := [C.lit "./client"; C.lit "HELLO"].

Definition argv_none : list (list byte) := [C.lit "./client"].

Definition argv_extra : list (list byte) :=
  [C.lit "./client"; C.lit "HELLO"; C.lit "ignored"].

End Scenario.

(** ** Descriptors of a trace *)

(** The descriptors a trace closed, in order. *)
Definition closed (t : trace) : list Z :=
  flat_map (fun e => match e with Close fd => [fd] | _ => [] end) t.

(** The descriptors [accept] delivered in a trace, in order. *)
Definition delivered_sockets (t : trace) : list Z :=
  flat_map (fun e => match e with
                     | Accept _ r => if r <? 0 then [] else [r]
                     | _ => []
                     end) t.

(** ** The address of the peer

    [main] of the server turns the address of the peer into text with
    [inet_ntop], copies the text into [msg.client_ip] with [strncpy] and a
    count of [INET_ADDRSTRLEN - 1], and [process_message] prints the field
    with [%s]. *)

Module Peer.

Definition INET_ADDRSTRLEN : nat := 16.

(** An IPv4 address, its four bytes in network order. *)
Record in_addr : Type := {
  b1 : byte; b2 : byte; b3 : byte; b4 : byte
}.

Definition octet (b : byte) : list byte := C.decimal (Z.of_nat (Byte.to_nat b)).

(** The text [inet_ntop(AF_INET, ...)] writes: the four bytes in decimal,
    separated by dots. *)
Definition inet_ntop (a : in_addr) : list byte :=
  octet (b1 a) ++ C.lit "." ++ octet (b2 a) ++ C.lit "."
    ++ octet (b3 a) ++ C.lit "." ++ octet (b4 a).

(** [client_ip] of [main] once [inet_ntop] has returned: the text and its
    terminator at the start of the array. *)
Definition client_ip (a : in_addr) (junk : list byte) : list byte :=
  C.fill (C.auto_array INET_ADDRSTRLEN junk) (inet_ntop a ++ [C.NUL]).

(** [msg.client_ip] after
    [strncpy(msg.client_ip, client_ip, INET_ADDRSTRLEN - 1)]. *)
Definition client_ip_field (a : in_addr) (junk msg_junk : list byte)
  : list byte :=
  C.strncpy (C.auto_array INET_ADDRSTRLEN msg_junk) (client_ip a junk)
    (INET_ADDRSTRLEN - 1).

(** What ["  Client IP: %s"] of [process_message] prints. *)
Definition printed (a : in_addr) (junk msg_junk behind : list byte)
  : list byte :=
  C.string_at (client_ip_field a junk msg_junk) behind.

(** [msg.client_ip[15]], the byte the copy does not write. *)
Definition last_byte (msg_junk : list byte) : byte :=
  nth (INET_ADDRSTRLEN - 1) (C.auto_array INET_ADDRSTRLEN msg_junk) xff.

End Peer.

(** * Properties *)

(** ** C strings *)

Section CStrings.

Import C.

Lemma cstr_app_NUL (s r : list byte) : cstr (s ++ NUL :: r) = cstr s.
Proof.
  induction s as [|b s IH]; simpl; [reflexivity|].
  destruct (is_nul b); [reflexivity|]. now rewrite IH.
Qed.

Lemma cstr_text_app (s r : list byte) :
  no_nul s = true -> cstr (s ++ r) = s ++ cstr r.
Proof.
  induction s as [|b s IH]; simpl; [reflexivity|].
  intros [Hb Hs]%andb_prop.
  destruct (is_nul b); [discriminate|]. now rewrite IH.
Qed.

Lemma cstr_text (s : list byte) : no_nul s = true -> cstr s = s.
Proof.
  intros H. rewrite <- (app_nil_r s) at 1.
  rewrite cstr_text_app by assumption. simpl. apply app_nil_r.
Qed.

Lemma no_nul_cstr (s : list byte) : no_nul (cstr s) = true.
Proof.
  induction s as [|b s IH]; simpl; [reflexivity|].
  destruct (is_nul b) eqn:E; simpl; [reflexivity|]. now rewrite E.
Qed.

Lemma no_nul_app (s r : list byte) :
  no_nul (s ++ r) = no_nul s && no_nul r.
Proof. unfold no_nul. apply forallb_app. Qed.

Lemma no_nul_firstn (n : nat) (s : list byte) :
  no_nul s = true -> no_nul (firstn n s) = true.
Proof.
  revert n. induction s as [|b s IH]; intros [|n]; simpl; try reflexivity.
  intros [Hb Hs]%andb_prop. rewrite Hb. simpl. now apply IH.
Qed.

Lemma cstr_length_le (s : list byte) : (length (cstr s) <= length s)%nat.
Proof.
  induction s as [|b s IH]; simpl; [lia|].
  destruct (is_nul b); simpl; lia.
Qed.

(** The digits of a number hold no NUL. *)
Lemma no_nul_uint (d : Decimal.uint) :
  no_nul (lit (NilEmpty.string_of_uint d)) = true.
Proof. induction d; simpl; try reflexivity; exact IHd. Qed.

Lemma no_nul_nilzero (d : Decimal.uint) :
  no_nul (lit (NilZero.string_of_uint d)) = true.
Proof.
  unfold NilZero.string_of_uint.
  destruct d; try reflexivity; apply no_nul_uint.
Qed.

Lemma no_nul_decimal (z : Z) : no_nul (decimal z) = true.
Proof.
  unfold decimal, NilZero.string_of_int.
  destruct (Z.to_int z) as [d|d]; [apply no_nul_nilzero|].
  change (negb (is_nul "-"%byte) && no_nul (lit (NilZero.string_of_uint d)) = true).
  now rewrite no_nul_nilzero.
Qed.

Lemma store_app (s r : list byte) (b c : byte) :
  store (s ++ b :: r) (length s) c = s ++ c :: r.
Proof. induction s as [|x s IH]; simpl; [reflexivity|]. now rewrite IH. Qed.

Lemma skipn_repeat (n k : nat) (c : byte) :
  skipn k (repeat c n) = repeat c (n - k).
Proof.
  revert k. induction n as [|n IH]; intros [|k]; simpl; try reflexivity.
  apply IH.
Qed.

Lemma to_int_small (n : nat) : (n <= 255)%nat -> to_int (Z.of_nat n) = Z.of_nat n.
Proof.
  intros H. unfold to_int.
  rewrite Z.mod_small; [lia|].
  change (2 ^ 31) with 2147483648. change (2 ^ 32) with 4294967296. lia.
Qed.

Lemma auto_array_length (n : nat) (junk : list byte) :
  length (auto_array n junk) = n.
Proof.
  unfold auto_array. rewrite length_firstn, length_app, repeat_length. lia.
Qed.

(** [snprintf] of a text and what [strlen] and [send] see of it. *)
Lemma snprintf_cstr (size : nat) (text : list byte) :
  no_nul text = true ->
  cstr (snprintf size text) = firstn (size - 1) text.
Proof.
  intros H. unfold snprintf. rewrite cstr_app_NUL.
  apply cstr_text, no_nul_firstn, H.
Qed.

Lemma snprintf_sent (size : nat) (text : list byte) :
  no_nul text = true ->
  firstn (strlen (snprintf size text)) (snprintf size text)
  = firstn (size - 1) text.
Proof.
  intros H. unfold strlen. rewrite snprintf_cstr by assumption.
  unfold snprintf. rewrite firstn_app, Nat.sub_diag, firstn_all. simpl.
  apply app_nil_r.
Qed.

End CStrings.

(** ** Runs *)

Section Runs.

Lemma bind_done {A B} (t : trace) (a : A) (k : A -> IO B) :
  bind (t, Done a) k = (t ++ fst (k a), snd (k a)).
Proof. simpl. now destruct (k a). Qed.

Lemma bind_exited {A B} (t : trace) (c : Z) (k : A -> IO B) :
  bind (t, Exited c) k = (t, Exited c).
Proof. reflexivity. Qed.

Lemma calls_app (t u : trace) : calls (t ++ u) = calls t ++ calls u.
Proof. apply filter_app. Qed.

Lemma stderr_app (t u : trace) : stderr (t ++ u) = stderr t ++ stderr u.
Proof. apply flat_map_app. Qed.

End Runs.

(** Runs a sequence of calls whose results are known. *)
Ltac step_io :=
  repeat first [ rewrite bind_done
               | rewrite bind_exited
               | progress cbn [fst snd app]
               | progress cbv beta iota ].

(** ** The server's turn *)

Section ServerTurn.

Import C.

(** The buffer of [main] once [receive_via_tcp] has returned. *)
Lemma receive_via_tcp_buffer (fd : Z) (a : arrival) :
  Server.receive_via_tcp fd (memset NUL Server.BUFFER_SIZE) Server.BUFFER_SIZE a
  = (Recv fd 255 (Server.received a)
       :: (if Server.received a >? 0
           then [Stdout (LReceived (Server.received a))] else []),
     Done (match a with
           | RecvError => memset NUL Server.BUFFER_SIZE
           | Arrived data =>
               Server.delivered data
                 ++ repeat NUL (Server.BUFFER_SIZE - length (Server.delivered data))
           end)).
Proof.
  destruct a as [|data]; [reflexivity|].
  unfold Server.receive_via_tcp, recv, Server.received.
  change (Server.BUFFER_SIZE - 1)%nat with 255%nat.
  fold (Server.delivered data).
  change (firstn 255 data) with (Server.delivered data).
  assert (Hlen : (length (Server.delivered data) <= 255)%nat)
    by (unfold Server.delivered; rewrite length_firstn;
        change (Server.BUFFER_SIZE - 1)%nat with 255%nat; lia).
  set (got := Server.delivered data) in *.
  unfold emit, ret, printf, emit, fill, memset. rewrite skipn_repeat.
  step_io.
  destruct (Z.of_nat (length got) >? 0) eqn:E; [|reflexivity].
  step_io. rewrite Nat2Z.id.
  replace (Server.BUFFER_SIZE - length got)%nat
    with (S (Server.BUFFER_SIZE - length got - 1))
    by (unfold Server.BUFFER_SIZE; lia).
  cbn [repeat]. rewrite store_app. reflexivity.
Qed.

Lemma taken_arrived (data : list byte) :
  Server.taken (Arrived data) = cstr (Server.delivered data).
Proof.
  unfold Server.taken. rewrite receive_via_tcp_buffer. cbn [snd].
  assert (Hlen : (length (Server.delivered data) <= 255)%nat)
    by (unfold Server.delivered; rewrite length_firstn;
        change (Server.BUFFER_SIZE - 1)%nat with 255%nat; lia).
  replace (Server.BUFFER_SIZE - length (Server.delivered data))%nat
    with (S (Server.BUFFER_SIZE - length (Server.delivered data) - 1))
    by (unfold Server.BUFFER_SIZE; lia).
  cbn [repeat]. apply cstr_app_NUL.
Qed.

Lemma taken_text (a : arrival) : no_nul (Server.taken a) = true.
Proof.
  destruct a; [reflexivity|]. rewrite taken_arrived. apply no_nul_cstr.
Qed.

Lemma taken_length (a : arrival) : (length (Server.taken a) <= 255)%nat.
Proof.
  destruct a as [|data]; [simpl; lia|]. rewrite taken_arrived.
  etransitivity; [apply cstr_length_le|].
  unfold Server.delivered. rewrite length_firstn.
  change (Server.BUFFER_SIZE - 1)%nat with 255%nat. lia.
Qed.

Lemma taken_buffer (fd : Z) (a : arrival) (t : trace) (buffer : list byte) :
  Server.receive_via_tcp fd (memset NUL Server.BUFFER_SIZE) Server.BUFFER_SIZE a
  = (t, Done buffer) ->
  cstr buffer = Server.taken a.
Proof.
  intros H. unfold Server.taken.
  rewrite receive_via_tcp_buffer in *. cbn [snd].
  now injection H as _ <-.
Qed.

Lemma skipn_last (n : nat) (l : list byte) (d : byte) :
  length l = S n -> skipn n l = [nth n l d].
Proof.
  revert l. induction n as [|n IH]; intros [|x l] H; try discriminate.
  - destruct l; [reflexivity|discriminate].
  - simpl. apply IH. now injection H.
Qed.

Lemma message_field_tail (junk : list byte) :
  skipn (Server.MESSAGE_SIZE - 1) (auto_array Server.MESSAGE_SIZE junk)
  = [Server.last_byte junk].
Proof.
  unfold Server.last_byte. apply skipn_last.
  rewrite auto_array_length. reflexivity.
Qed.

(** [strncpy] of a string shorter than 199 characters: the field holds
    the string and NUL up to its byte 198. *)
Lemma message_field_short (m junk : list byte) :
  no_nul m = true -> (length m < 199)%nat ->
  Server.message_field m junk
  = m ++ repeat NUL (199 - length m) ++ [Server.last_byte junk].
Proof.
  intros Ht Hl. unfold Server.message_field, strncpy.
  rewrite message_field_tail, (cstr_text m Ht).
  change (Server.MESSAGE_SIZE - 1)%nat with 199%nat.
  rewrite firstn_all2 by lia. reflexivity.
Qed.

(** [strncpy] of a string of 199 characters or more: 199 characters and no
    terminator. *)
Lemma message_field_long (m junk : list byte) :
  no_nul m = true -> (199 <= length m)%nat ->
  Server.message_field m junk = firstn 199 m ++ [Server.last_byte junk].
Proof.
  intros Ht Hl. unfold Server.message_field, strncpy.
  rewrite message_field_tail, (cstr_text m Ht).
  change (Server.MESSAGE_SIZE - 1)%nat with 199%nat.
  rewrite length_firstn, Nat.min_l by lia.
  rewrite Nat.sub_diag. reflexivity.
Qed.

Lemma echoed_short (m junk behind : list byte) :
  no_nul m = true -> (length m < 199)%nat ->
  Server.echoed m junk behind = m.
Proof.
  intros Ht Hl. unfold Server.echoed, string_at.
  rewrite message_field_short by assumption.
  replace (199 - length m)%nat with (S (198 - length m)) by lia.
  cbn [repeat]. rewrite <- !app_assoc, <- app_comm_cons.
  rewrite cstr_app_NUL. now apply cstr_text.
Qed.

Lemma echoed_long (m junk behind : list byte) :
  no_nul m = true -> (199 <= length m)%nat ->
  Server.echoed m junk behind
  = firstn 199 m ++ cstr (Server.last_byte junk :: behind).
Proof.
  intros Ht Hl. unfold Server.echoed, string_at.
  rewrite message_field_long by assumption.
  rewrite <- app_assoc. cbn [app].
  apply cstr_text_app, no_nul_firstn, Ht.
Qed.

Lemma response_text_no_nul (msg : Server.ApplicationMessage) (behind : list byte) :
  no_nul (Server.response_text msg behind) = true.
Proof.
  unfold Server.response_text, string_at.
  rewrite !no_nul_app, no_nul_cstr, no_nul_decimal. reflexivity.
Qed.

(** One turn of the loop on a connection that [accept] delivered: every
    event of it, in order. *)
Lemma serve_accepted (server_socket : Z) (c : Server.connection) :
  (Server.accepted c <? 0) = false ->
  let fd := Server.accepted c in
  let m := Server.taken (Server.arrives c) in
  let ack := Server.acknowledgment m (Server.junk c) (Server.behind c) in
  Server.serve server_socket c
  = (Accept server_socket fd
       :: Recv fd 255 (Server.received (Server.arrives c))
       :: (if Server.received (Server.arrives c) >? 0
           then [Stdout (LReceived (Server.received (Server.arrives c)))]
           else [])
       ++ [Stdout (LMessage (Server.echoed m (Server.junk c) (Server.behind c)));
           Stdout (LLength (Z.of_nat (length m)));
           Stdout (LResponse ack);
           Stdout (LDataSize (length ack));
           Send fd ack (Server.sent c);
           Stdout (LSent (Server.sent c));
           Close fd;
           Stdout LClosed],
     Done tt).
Proof.
  intros Hfd fd m ack.
  unfold Server.serve, accept, emit, ret. step_io. rewrite Hfd. fold fd.
  destruct (Server.receive_via_tcp fd (memset NUL Server.BUFFER_SIZE)
              Server.BUFFER_SIZE (Server.arrives c)) as [t [buffer|code]] eqn:R;
    [|rewrite receive_via_tcp_buffer in R; discriminate].
  pose proof (taken_buffer _ _ _ _ R) as Hm. fold m in Hm.
  rewrite receive_via_tcp_buffer in R. injection R as <- _.
  step_io.
  assert (Hfield : strncpy (auto_array Server.MESSAGE_SIZE (Server.junk c))
                     buffer (Server.MESSAGE_SIZE - 1)
                   = Server.message_field m (Server.junk c)).
  { unfold Server.message_field, strncpy. rewrite Hm.
    subst m. now rewrite cstr_text by apply taken_text. }
  assert (Hlen : to_int (Z.of_nat (strlen buffer)) = Z.of_nat (length m)).
  { unfold strlen. rewrite Hm. apply to_int_small. subst m. apply taken_length. }
  rewrite Hfield, Hlen.
  set (msg := {| Server.message := Server.message_field m (Server.junk c);
                 Server.message_length := Z.of_nat (length m) |}).
  assert (Hack : firstn (Server.BUFFER_SIZE - 1) (Server.response_text msg (Server.behind c))
                 = ack) by reflexivity.
  unfold Server.process_message, Server.send_via_tcp, send, printf, close, emit, ret.
  step_io.
  rewrite snprintf_sent, snprintf_cstr by apply response_text_no_nul.
  unfold strlen. rewrite snprintf_cstr by apply response_text_no_nul.
  rewrite Hack. cbn [Server.message Server.message_length msg].
  fold (Server.echoed m (Server.junk c) (Server.behind c)).
  reflexivity.
Qed.

(** One turn of the loop when [accept] fails. *)
Lemma serve_refused (server_socket : Z) (c : Server.connection) :
  (Server.accepted c <? 0) = true ->
  Server.serve server_socket c
  = ([Accept server_socket (Server.accepted c); Perror "Accept failed"], Done tt).
Proof.
  intros Hfd. unfold Server.serve, accept, emit, ret. step_io.
  rewrite Hfd. reflexivity.
Qed.

End ServerTurn.

(** ** The accept loop *)

Section AcceptLoop.

Import C.

Lemma accepted_sign (z : Z) : (z <? 0) = true \/ (z <? 0) = false.
Proof. destruct (z <? 0); auto. Qed.

Lemma serve_done (server_socket : Z) (c : Server.connection) :
  snd (Server.serve server_socket c) = Done tt.
Proof.
  destruct (accepted_sign (Server.accepted c)) as [H|H].
  - now rewrite serve_refused.
  - now rewrite serve_accepted.
Qed.

Lemma accept_loop_trace (server_socket : Z) (cs : list Server.connection) :
  Server.accept_loop server_socket cs
  = (flat_map (fun c => fst (Server.serve server_socket c)) cs, Done tt).
Proof.
  induction cs as [|c cs IH]; [reflexivity|].
  cbn [Server.accept_loop flat_map].
  pose proof (serve_done server_socket c) as Hc.
  destruct (Server.serve server_socket c) as [t r]. cbn [snd] in Hc. subst r.
  step_io. now rewrite IH.
Qed.

Lemma serve_calls (server_socket : Z) (c : Server.connection) :
  calls (fst (Server.serve server_socket c)) = ordered_steps server_socket c.
Proof.
  unfold ordered_steps.
  destruct (accepted_sign (Server.accepted c)) as [H|H]; rewrite H.
  - now rewrite serve_refused.
  - rewrite serve_accepted by assumption. cbn [fst].
    now destruct (Server.received (Server.arrives c) >? 0).
Qed.

Lemma serve_stderr (server_socket : Z) (c : Server.connection) :
  stderr (fst (Server.serve server_socket c))
  = if Server.accepted c <? 0 then ["Accept failed"%string] else [].
Proof.
  destruct (accepted_sign (Server.accepted c)) as [H|H]; rewrite H.
  - now rewrite serve_refused.
  - rewrite serve_accepted by assumption. cbn [fst].
    now destruct (Server.received (Server.arrives c) >? 0).
Qed.

Lemma loop_stderr (server_socket : Z) (cs : list Server.connection) :
  stderr (flat_map (fun c => fst (Server.serve server_socket c)) cs)
  = flat_map (fun c => if Server.accepted c <? 0
                       then ["Accept failed"%string] else []) cs.
Proof.
  induction cs as [|c cs IH]; [reflexivity|].
  cbn [flat_map]. now rewrite stderr_app, serve_stderr, IH.
Qed.

Lemma start_ok (s : Server.startup) :
  0 <= Server.socket_ret s -> 0 <= Server.bind_ret s ->
  0 <= Server.listen_ret s ->
  Server.start s
  = ([Socket (Server.socket_ret s);
      Setsockopt (Server.socket_ret s);
      Bind (Server.socket_ret s) Server.PORT (Server.bind_ret s);
      Listen (Server.socket_ret s) 5 (Server.listen_ret s)],
     Done (Server.socket_ret s)).
Proof.
  intros Hs Hb Hl.
  unfold Server.start, socket, setsockopt, bind_port, listen, emit, ret.
  step_io. replace (Server.socket_ret s <? 0) with false by lia.
  step_io. replace (Server.bind_ret s <? 0) with false by lia.
  step_io. replace (Server.listen_ret s <? 0) with false by lia.
  reflexivity.
Qed.

End AcceptLoop.

(** ** The client's run *)

Section ClientRun.

Import C.

Lemma store_last (s : list byte) (b c : byte) :
  store (s ++ [b]) (length s) c = s ++ [c].
Proof. apply store_app. Qed.

(** [app_buffer] when [prepare_message] has returned: the first 255
    characters of the input, and NUL up to the end of the array. *)
Lemma prepared_buffer (input junk : list byte) :
  store (strncpy (auto_array Client.BUFFER_SIZE junk) input (Client.BUFFER_SIZE - 1))
        (Client.BUFFER_SIZE - 1) NUL
  = firstn 255 (cstr input)
      ++ repeat NUL (255 - length (firstn 255 (cstr input))) ++ [NUL].
Proof.
  unfold strncpy. change (Client.BUFFER_SIZE - 1)%nat with 255%nat.
  rewrite (skipn_last 255 _ NUL) by apply auto_array_length.
  set (s := firstn 255 (cstr input)).
  assert (Hs : (length s <= 255)%nat) by (subst s; rewrite length_firstn; lia).
  set (b := nth 255 _ NUL). set (pad := repeat NUL (255 - length s)).
  assert (Hp : length (s ++ pad) = 255%nat)
    by (subst pad; rewrite length_app, repeat_length; lia).
  rewrite app_assoc, <- Hp, store_last. now rewrite <- app_assoc.
Qed.

Lemma prepared_string (input : list byte) :
  let s := firstn 255 (cstr input) in
  cstr (s ++ repeat NUL (255 - length s) ++ [NUL]) = s.
Proof.
  intros s.
  assert (Ht : no_nul s = true) by apply no_nul_firstn, no_nul_cstr.
  rewrite cstr_text_app by assumption.
  destruct (255 - length s)%nat; simpl; apply app_nil_r.
Qed.

(** What the client offers to [send]: at most 255 characters of the
    message chosen. *)
Lemma request_chosen (argv : list (list byte)) (junk : list byte) :
  Client.request argv junk = firstn 255 (cstr (Client.choose_message argv)).
Proof.
  unfold Client.request, strlen. rewrite prepared_buffer, prepared_string.
  rewrite firstn_app, Nat.sub_diag, firstn_all. simpl. apply app_nil_r.
Qed.

Lemma client_receive_as_server :
  Client.receive_via_tcp = Server.receive_via_tcp.
Proof. reflexivity. Qed.

(** The run of the client once it has a socket and a connection: every
    event of it, in order, whatever [send] and [recv] return. *)
Lemma main_connected (argv : list (list byte)) (e : Client.environment) :
  0 <= Client.socket_ret e -> 0 <= Client.connect_ret e ->
  let fd := Client.socket_ret e in
  let input := Client.choose_message argv in
  let req := Client.request argv (Client.junk e) in
  let n := Server.received (Client.arrives e) in
  let reply := Server.taken (Client.arrives e) in
  Client.main argv e
  = ([Stdout (LUserInput (cstr input));
      Stdout (LMessageLength (strlen input));
      Socket fd;
      Connect fd (Client.connect_ret e);
      Stdout (LDataLength (length req));
      Send fd req (Client.sent e)]
       ++ (if Client.sent e >? 0 then [Stdout (LSentMarked (Client.sent e))] else [])
       ++ Recv fd 255 n
       :: (if n >? 0 then [Stdout (LReceived n)] else [])
       ++ [Stdout (LMessage reply);
           Stdout (LResponseLength (length reply));
           Close fd],
     Done 0).
Proof.
  intros Hs Hc fd input req n reply.
  unfold Client.main, Client.prepare_message, Client.establish_tcp_connection,
    Client.send_via_tcp, Client.display_response,
    socket, connect, send, printf, close, emit, ret.
  fold input. step_io.
  replace (Client.socket_ret e <? 0) with false by lia. step_io.
  replace (Client.connect_ret e <? 0) with false by lia. step_io.
  fold fd.
  assert (Hreq : firstn (strlen (store (strncpy (auto_array Client.BUFFER_SIZE (Client.junk e))
                                  input (Client.BUFFER_SIZE - 1))
                                 (Client.BUFFER_SIZE - 1) NUL))
                   (store (strncpy (auto_array Client.BUFFER_SIZE (Client.junk e))
                                  input (Client.BUFFER_SIZE - 1))
                          (Client.BUFFER_SIZE - 1) NUL) = req) by reflexivity.
  assert (Hlen : strlen (store (strncpy (auto_array Client.BUFFER_SIZE (Client.junk e))
                                  input (Client.BUFFER_SIZE - 1))
                                 (Client.BUFFER_SIZE - 1) NUL) = length req).
  { subst req. rewrite request_chosen. unfold strlen.
    now rewrite prepared_buffer, prepared_string. }
  rewrite Hreq, Hlen.
  rewrite client_receive_as_server.
  change Client.BUFFER_SIZE with Server.BUFFER_SIZE.
  destruct (Server.receive_via_tcp fd (memset NUL Server.BUFFER_SIZE)
              Server.BUFFER_SIZE (Client.arrives e)) as [t [buffer|code]] eqn:R;
    [|rewrite receive_via_tcp_buffer in R; discriminate].
  pose proof (taken_buffer _ _ _ _ R) as Hm. fold reply in Hm.
  rewrite receive_via_tcp_buffer in R. injection R as <- _. fold n.
  destruct (Client.sent e >? 0); step_io; unfold strlen; rewrite Hm;
    rewrite <- ?app_assoc; reflexivity.
Qed.

Lemma main_no_socket (argv : list (list byte)) (e : Client.environment) :
  Client.socket_ret e < 0 ->
  Client.main argv e
  = ([Stdout (LUserInput (cstr (Client.choose_message argv)));
      Stdout (LMessageLength (strlen (Client.choose_message argv)));
      Socket (Client.socket_ret e);
      Perror "Socket creation failed";
      ExitCall 1],
     Exited 1).
Proof.
  intros Hs.
  unfold Client.main, Client.prepare_message, Client.establish_tcp_connection,
    socket, perror, printf, exit, emit, ret.
  step_io. replace (Client.socket_ret e <? 0) with true by lia.
  step_io. reflexivity.
Qed.

Lemma main_no_connection (argv : list (list byte)) (e : Client.environment) :
  0 <= Client.socket_ret e -> Client.connect_ret e < 0 ->
  Client.main argv e
  = ([Stdout (LUserInput (cstr (Client.choose_message argv)));
      Stdout (LMessageLength (strlen (Client.choose_message argv)));
      Socket (Client.socket_ret e);
      Connect (Client.socket_ret e) (Client.connect_ret e);
      Perror "Connection failed";
      ExitCall 1],
     Exited 1).
Proof.
  intros Hs Hc.
  unfold Client.main, Client.prepare_message, Client.establish_tcp_connection,
    socket, connect, perror, printf, exit, emit, ret.
  step_io. replace (Client.socket_ret e <? 0) with false by lia.
  step_io. replace (Client.connect_ret e <? 0) with true by lia.
  step_io. reflexivity.
Qed.

End ClientRun.

(** ** The acknowledgment *)

Section Acknowledgment.

Import C.

Lemma taken_whole (m : list byte) :
  no_nul m = true -> (length m <= 255)%nat -> Server.taken (Arrived m) = m.
Proof.
  intros Ht Hl. rewrite taken_arrived. unfold Server.delivered.
  rewrite firstn_all2 by (change (Server.BUFFER_SIZE - 1)%nat with 255%nat; lia).
  now apply cstr_text.
Qed.

Lemma offered_serve (server_socket : Z) (c : Server.connection) :
  (Server.accepted c <? 0) = false ->
  Exchange.offered (fst (Server.serve server_socket c))
  = Server.acknowledgment (Server.taken (Server.arrives c))
      (Server.junk c) (Server.behind c).
Proof.
  intros H. rewrite serve_accepted by assumption. cbn [fst].
  now destruct (Server.received (Server.arrives c) >? 0).
Qed.

Lemma reply_acknowledgment (request junk behind : list byte) :
  Exchange.reply request junk behind
  = Server.acknowledgment (Server.taken (Arrived request)) junk behind.
Proof.
  unfold Exchange.reply, Exchange.server_turn.
  now rewrite offered_serve.
Qed.

(** A count of at most 255 prints as at most three digits. *)
Lemma decimal_length (n : nat) :
  (n <= 255)%nat -> (length (decimal (Z.of_nat n)) <= 3)%nat.
Proof.
  intros H.
  assert (All : forallb (fun k => length (decimal (Z.of_nat k)) <=? 3)%nat
                        (seq 0 256) = true) by (vm_compute; reflexivity).
  rewrite forallb_forall in All.
  apply Nat.leb_le, All, in_seq. lia.
Qed.

Lemma acknowledgment_no_nul (m junk behind : list byte) :
  no_nul (Server.acknowledgment m junk behind) = true.
Proof.
  unfold Server.acknowledgment. apply no_nul_firstn.
  unfold Server.echoed, string_at.
  rewrite !no_nul_app, no_nul_cstr, no_nul_decimal. reflexivity.
Qed.

Lemma acknowledgment_length (m junk behind : list byte) :
  (length (Server.acknowledgment m junk behind) <= 255)%nat.
Proof.
  unfold Server.acknowledgment. rewrite length_firstn.
  change (Server.BUFFER_SIZE - 1)%nat with 255%nat. lia.
Qed.

(** The acknowledgment of a text shorter than 199 characters: the whole
    text and its length, nothing cut and nothing added. *)
Lemma acknowledgment_short (m junk behind : list byte) :
  no_nul m = true -> (length m < 199)%nat ->
  Server.acknowledgment m junk behind
  = lit "SERVER ACK: Received '" ++ m ++ lit "' ("
      ++ decimal (Z.of_nat (length m)) ++ lit " bytes)".
Proof.
  intros Ht Hl. unfold Server.acknowledgment.
  rewrite echoed_short by assumption.
  apply firstn_all2.
  pose proof (decimal_length (length m) ltac:(lia)) as Hd.
  rewrite !length_app.
  change (length (lit "SERVER ACK: Received '")) with 22%nat.
  change (length (lit "' (")) with 3%nat.
  change (length (lit " bytes)")) with 7%nat.
  change (Server.BUFFER_SIZE - 1)%nat with 255%nat. lia.
Qed.

(** What the client displays is what the server offered, for every message
    and every state of the server's stack. *)
Lemma roundtrip_reply (message junk behind : list byte) :
  Exchange.roundtrip message junk behind
  = Server.acknowledgment (firstn 255 (cstr message)) junk behind.
Proof.
  unfold Exchange.roundtrip, Exchange.client_run.
  rewrite main_connected by (cbn; lia).
  cbn [Client.socket_ret Client.connect_ret Client.sent Client.arrives Client.junk fst].
  rewrite request_chosen.
  change (Client.choose_message [lit "client"; message]) with message.
  set (req := firstn 255 (cstr message)).
  assert (Hreq : Server.taken (Arrived req) = req).
  { apply taken_whole; subst req.
    - apply no_nul_firstn, no_nul_cstr.
    - rewrite length_firstn. lia. }
  rewrite reply_acknowledgment, Hreq.
  rewrite taken_whole
    by (apply acknowledgment_no_nul || apply acknowledgment_length).
  destruct (Z.of_nat (length req) >? 0);
    destruct (Server.received _ >? 0); reflexivity.
Qed.

End Acknowledgment.

(** ** Turns that end in the signal *)

Section Signals.

Import C.

Lemma turn_alive (server_socket : Z) (x : Sigpipe.session) :
  Sigpipe.dies x = false ->
  Sigpipe.turn server_socket x
  = (fst (Server.serve server_socket (Sigpipe.conn x)), Sigpipe.Running).
Proof.
  unfold Sigpipe.dies, Sigpipe.turn. intros H.
  pose proof (serve_done server_socket (Sigpipe.conn x)) as Hd.
  destruct (Sigpipe.broken x); cbn [andb] in H.
  - apply negb_false_iff in H. rewrite serve_refused in * by assumption.
    reflexivity.
  - now rewrite Hd.
Qed.

Lemma turn_dead (server_socket : Z) (x : Sigpipe.session) :
  Sigpipe.dies x = true ->
  let c := Sigpipe.conn x in
  let fd := Server.accepted c in
  let m := Server.taken (Server.arrives c) in
  let ack := Server.acknowledgment m (Server.junk c) (Server.behind c) in
  Sigpipe.turn server_socket x
  = (Accept server_socket fd
       :: Recv fd 255 (Server.received (Server.arrives c))
       :: (if Server.received (Server.arrives c) >? 0
           then [Stdout (LReceived (Server.received (Server.arrives c)))]
           else [])
       ++ [Stdout (LMessage (Server.echoed m (Server.junk c) (Server.behind c)));
           Stdout (LLength (Z.of_nat (length m)));
           Stdout (LResponse ack);
           Stdout (LDataSize (length ack))],
     Sigpipe.Killed fd ack).
Proof.
  intros [Hb Hfd]%andb_prop c fd m ack.
  apply negb_true_iff in Hfd. unfold Sigpipe.turn. rewrite Hb.
  fold c. rewrite serve_accepted by assumption. cbn [fst]. fold fd m ack.
  destruct (Server.received (Server.arrives c) >? 0); reflexivity.
Qed.

Lemma not_broken_alive (xs : list Sigpipe.session) :
  forallb (fun x => negb (Sigpipe.broken x)) xs = true ->
  forallb (fun x => negb (Sigpipe.dies x)) xs = true.
Proof.
  induction xs as [|x xs IH]; [reflexivity|].
  cbn [forallb]. intros [Hx Hxs]%andb_prop. rewrite (IH Hxs).
  unfold Sigpipe.dies. apply negb_true_iff in Hx. now rewrite Hx.
Qed.

(** While no turn ends in the signal the loop is the loop of [main]. *)
Lemma loop_alive (server_socket : Z) (xs : list Sigpipe.session) :
  forallb (fun x => negb (Sigpipe.dies x)) xs = true ->
  Sigpipe.loop server_socket xs
  = (fst (Server.accept_loop server_socket (map Sigpipe.conn xs)),
     Sigpipe.Running).
Proof.
  rewrite accept_loop_trace. cbn [fst].
  induction xs as [|x xs IH]; [reflexivity|].
  cbn [forallb]. intros [Hx Hxs]%andb_prop. apply negb_true_iff in Hx.
  cbn [Sigpipe.loop map flat_map].
  rewrite turn_alive by assumption. now rewrite (IH Hxs).
Qed.

Lemma main_alive (s : Server.startup) (xs : list Sigpipe.session) :
  0 <= Server.socket_ret s -> 0 <= Server.bind_ret s ->
  0 <= Server.listen_ret s ->
  forallb (fun x => negb (Sigpipe.dies x)) xs = true ->
  Sigpipe.main s xs
  = (fst (Server.main s (map Sigpipe.conn xs)), Sigpipe.Running).
Proof.
  intros Hs Hb Hl Hx. unfold Sigpipe.main, Server.main.
  rewrite start_ok by assumption. rewrite loop_alive by assumption.
  step_io. reflexivity.
Qed.

(** The acknowledgment in terms of the bytes alone. *)
Lemma last_byte_nth (junk : list byte) :
  Server.last_byte junk = nth 199 (junk ++ repeat xff 200) xff.
Proof.
  unfold Server.last_byte, auto_array.
  change (Server.MESSAGE_SIZE - 1)%nat with 199%nat.
  change Server.MESSAGE_SIZE with 200%nat.
  now rewrite nth_firstn.
Qed.

Lemma acknowledgment_written_out (m junk behind : list byte) :
  no_nul m = true ->
  Server.acknowledgment m junk behind
  = acknowledgment_text m (nth 199 (junk ++ repeat xff 200) xff) behind.
Proof.
  intros Ht. unfold Server.acknowledgment, acknowledgment_text.
  rewrite <- last_byte_nth.
  destruct (Nat.ltb_spec (length m) 199) as [H|H].
  - now rewrite echoed_short.
  - now rewrite echoed_long.
Qed.

Lemma taken_message_read (a : arrival) : Server.taken a = message_read a.
Proof. destruct a; [reflexivity|]. apply taken_arrived. Qed.

Lemma serve_described (server_socket : Z) (c : Server.connection) :
  calls (fst (Server.serve server_socket c)) = described_turn server_socket c.
Proof.
  rewrite serve_calls. unfold ordered_steps, described_turn.
  destruct (Server.accepted c <? 0); [reflexivity|].
  rewrite acknowledgment_written_out by apply taken_text.
  rewrite taken_message_read.
  destruct (Server.arrives c); reflexivity.
Qed.

End Signals.

(** * The claims *)

(** ** C1: the acknowledgment of a message *)

(** C1, as stated, fails twice.  For the input HELLO the server offers
    [SERVER ACK: Received 'HELLO' (5 bytes)], which is not
    [ACK: HELLO (5 bytes)]; and for a message within the buffer cap but of
    199 bytes or more (here 210 letters) the acknowledgment is not a function
    of the message: two states of the server's stack give two different
    acknowledgments. *)
Lemma C1_counterexample :
  Exchange.roundtrip (C.lit "HELLO") [] []
  = C.lit "SERVER ACK: Received 'HELLO' (5 bytes)"
  /\ Exchange.roundtrip (C.lit "HELLO") [] [] <> C.lit "ACK: HELLO (5 bytes)"
  /\ (length Scenario.long_message <= Server.BUFFER_SIZE - 1)%nat
  /\ Exchange.reply Scenario.long_message (repeat x00 200) []
     <> Exchange.reply Scenario.long_message (repeat "#"%byte 200) (C.lit "??").
Proof.
  split; [vm_compute; reflexivity|].
  split; [intros H; apply (f_equal (@length byte)) in H; vm_compute in H;
          discriminate|].
  split; [vm_compute; lia|].
  intros H; apply (f_equal (@length byte)) in H; vm_compute in H; discriminate.
Qed.

(** C1, amended: for every message of at most 198 bytes without NUL that
    reaches the server in one read, the acknowledgment is
    [SERVER ACK: Received '] + message + [' (] + the decimal length +
    [ bytes)], whatever the server's stack holds; and when the message is
    not empty and is the argument of the client, it is what the client
    displays.  (With an empty argument the client sends nothing and no
    exchange takes place.) *)
Theorem C1_acknowledgment_of_message (M junk behind : list byte) :
  C.no_nul M = true -> (length M <= 198)%nat ->
  Exchange.reply M junk behind
  = C.lit "SERVER ACK: Received '" ++ M ++ C.lit "' ("
      ++ C.decimal (Z.of_nat (length M)) ++ C.lit " bytes)"
  /\ (M <> [] ->
      Client.request [C.lit "client"; M] [] = M
      /\ Exchange.roundtrip M junk behind = Exchange.reply M junk behind).
Proof.
  intros Ht Hl.
  assert (Hm : Server.taken (Arrived M) = M) by (apply taken_whole; [assumption|lia]).
  split.
  - rewrite reply_acknowledgment, Hm. apply acknowledgment_short; [assumption|lia].
  - intros _. split.
    + rewrite request_chosen.
      change (Client.choose_message [C.lit "client"; M]) with M.
      rewrite (cstr_text M Ht). apply firstn_all2. lia.
    + rewrite roundtrip_reply, reply_acknowledgment, Hm.
      rewrite (cstr_text M Ht), firstn_all2 by lia. reflexivity.
Qed.

Lemma C1_acknowledgment_of_message_witness :
  C.no_nul (C.lit "HELLO") = true
  /\ (length (C.lit "HELLO") <= 198)%nat
  /\ C.lit "HELLO" <> []
  /\ Exchange.reply (C.lit "HELLO") [] []
     = C.lit "SERVER ACK: Received 'HELLO' (5 bytes)"
  /\ Exchange.roundtrip (C.lit "HELLO") [] []
     = Exchange.reply (C.lit "HELLO") [] [].
Proof.
  split; [reflexivity|]. split; [simpl; lia|]. split; [discriminate|].
  split.
  - exact (proj1 (C1_acknowledgment_of_message (C.lit "HELLO") [] []
                    eq_refl ltac:(simpl; lia))).
  - exact (proj2 (proj2 (C1_acknowledgment_of_message (C.lit "HELLO") [] []
                           eq_refl ltac:(simpl; lia))
                    ltac:(discriminate))).
Defined.

(** ** C2: the empty message *)

(** C2: when the peer closes its side before any byte arrives ([recv]
    returns 0), the turn takes the empty message, offers the acknowledgment
    [SERVER ACK: Received '' (0 bytes)] to [send], closes the socket and
    writes nothing to standard error. *)
Theorem C2_empty_message_acknowledged (server_socket : Z) (c : Server.connection) :
  0 <= Server.accepted c ->
  Server.arrives c = Arrived [] ->
  calls (fst (Server.serve server_socket c))
  = [Accept server_socket (Server.accepted c);
     Recv (Server.accepted c) 255 0;
     Send (Server.accepted c) (C.lit "SERVER ACK: Received '' (0 bytes)")
          (Server.sent c);
     Close (Server.accepted c)]
  /\ stderr (fst (Server.serve server_socket c)) = []
  /\ In (Stdout (LLength 0)) (fst (Server.serve server_socket c)).
Proof.
  intros Hfd Ha.
  assert (Hs : (Server.accepted c <? 0) = false) by lia.
  rewrite serve_calls, serve_stderr. unfold ordered_steps.
  rewrite serve_accepted by assumption.
  rewrite Hs, Ha. cbn [fst].
  repeat split. simpl. auto 10.
Qed.

Lemma C2_empty_message_acknowledged_witness :
  0 <= Server.accepted Scenario.silent
  /\ Server.arrives Scenario.silent = Arrived []
  /\ calls (fst (Server.serve 3 Scenario.silent))
     = [Accept 3 4; Recv 4 255 0;
        Send 4 (C.lit "SERVER ACK: Received '' (0 bytes)") 33; Close 4].
Proof.
  split; [simpl; lia|]. split; [reflexivity|].
  exact (proj1 (C2_empty_message_acknowledged 3 Scenario.silent
                  ltac:(simpl; lia) eq_refl)).
Defined.

(** ** C3: failures while a connection is handled *)

(** C3, as stated, fails on a peer that resets the connection.  [recv]
    returns -1: nothing is written to standard error and the connection is
    not abandoned, the turn goes on as for an empty message up to [send].
    There the signal of the broken connection ends the server: the connection
    that waits behind is never accepted.  (When the [send] of such a turn
    returns -1 instead, that failure is not logged either, and the turn
    ends with [close].) *)
Lemma C3_counterexample :
  Server.arrives Scenario.reset = RecvError
  /\ stderr (fst (Sigpipe.main Scenario.started
                    [Sigpipe.resetting Scenario.reset;
                     Sigpipe.returning Scenario.hello])) = []
  /\ snd (Sigpipe.main Scenario.started
            [Sigpipe.resetting Scenario.reset;
             Sigpipe.returning Scenario.hello])
     = Sigpipe.Killed 4 (C.lit "SERVER ACK: Received '' (0 bytes)")
  /\ calls (fst (Sigpipe.main Scenario.started
                   [Sigpipe.resetting Scenario.reset;
                    Sigpipe.returning Scenario.hello]))
     = [Socket 3; Setsockopt 3; Bind 3 9999 0; Listen 3 5 0;
        Accept 3 4; Recv 4 255 (-1)]
  /\ stderr (fst (Server.serve 3 Scenario.reset)) = []
  /\ calls (fst (Server.serve 3 Scenario.reset))
     = [Accept 3 4; Recv 4 255 (-1);
        Send 4 (C.lit "SERVER ACK: Received '' (0 bytes)") (-1); Close 4].
Proof. repeat split. Qed.

(** C3, amended: for every sequence of connections on which every [send]
    returns to the server (none ends in the signal of a broken
    connection), and whatever [accept], [recv] and [send] return, the loop
    is at its head again after the last turn and the server has not
    exited.  A failed [accept] is logged ([Accept failed] on standard
    error) and ends the turn.  On a connection, a failed [recv] or a [send]
    that returns -1 writes nothing to standard error and abandons nothing:
    the turn offers the acknowledgment of what it took as the message (the
    empty message when [recv] failed), prints the count [send] returned, and
    closes the socket. *)
Theorem C3_accept_loop_continues (s : Server.startup) (xs : list Sigpipe.session) :
  0 <= Server.socket_ret s -> 0 <= Server.bind_ret s ->
  0 <= Server.listen_ret s ->
  forallb (fun x => negb (Sigpipe.broken x)) xs = true ->
  snd (Sigpipe.main s xs) = Sigpipe.Running
  /\ stderr (fst (Sigpipe.main s xs))
     = flat_map (fun x => if Server.accepted (Sigpipe.conn x) <? 0
                          then ["Accept failed"%string] else []) xs
  /\ length (filter (fun e => match e with Accept _ _ => true | _ => false end)
               (fst (Sigpipe.main s xs)))
     = length xs
  /\ (forall x, In x xs -> Server.accepted (Sigpipe.conn x) < 0 ->
       Sigpipe.turn (Server.socket_ret s) x
       = ([Accept (Server.socket_ret s) (Server.accepted (Sigpipe.conn x));
           Perror "Accept failed"], Sigpipe.Running))
  /\ (forall x, In x xs -> 0 <= Server.accepted (Sigpipe.conn x) ->
       let c := Sigpipe.conn x in
       snd (Sigpipe.turn (Server.socket_ret s) x) = Sigpipe.Running
       /\ stderr (fst (Sigpipe.turn (Server.socket_ret s) x)) = []
       /\ calls (fst (Sigpipe.turn (Server.socket_ret s) x))
          = [Accept (Server.socket_ret s) (Server.accepted c);
             Recv (Server.accepted c) 255 (Server.received (Server.arrives c));
             Send (Server.accepted c)
                  (Server.acknowledgment (Server.taken (Server.arrives c))
                     (Server.junk c) (Server.behind c))
                  (Server.sent c);
             Close (Server.accepted c)]
       /\ In (Stdout (LSent (Server.sent c)))
             (fst (Sigpipe.turn (Server.socket_ret s) x))
       /\ (Server.arrives c = RecvError ->
           Server.taken (Server.arrives c) = [])).
Proof.
  intros Hs Hb Hl Hx.
  pose proof (not_broken_alive xs Hx) as Ha.
  assert (Hturn : forall x, In x xs ->
            Sigpipe.turn (Server.socket_ret s) x
            = (fst (Server.serve (Server.socket_ret s) (Sigpipe.conn x)),
               Sigpipe.Running)).
  { intros x Hin. apply turn_alive.
    rewrite forallb_forall in Ha. specialize (Ha x Hin).
    now apply negb_true_iff in Ha. }
  rewrite main_alive by assumption. cbn [fst snd].
  unfold Server.main. rewrite start_ok by assumption. step_io.
  rewrite accept_loop_trace. step_io.
  split; [reflexivity|]. split; [|split].
  - rewrite stderr_app, loop_stderr.
    match goal with |- ?a ++ _ = _ => change a with (@nil String.string) end.
    rewrite app_nil_l. clear.
    induction xs as [|x xs IH]; [reflexivity|].
    cbn [map flat_map]. now rewrite IH.
  - rewrite filter_app, length_app.
    match goal with |- (length ?a + _)%nat = _ => change a with (@nil event) end.
    cbn [length Nat.add]. clear.
    induction xs as [|x xs IH]; [reflexivity|].
    cbn [map flat_map length]. rewrite filter_app, length_app, IH.
    change (S (length xs)) with (1 + length xs)%nat. f_equal.
    destruct (accepted_sign (Server.accepted (Sigpipe.conn x))) as [H|H].
    + now rewrite serve_refused.
    + rewrite serve_accepted by assumption. cbn [fst].
      now destruct (Server.received (Server.arrives (Sigpipe.conn x)) >? 0).
  - split; intros x Hin Hc.
    + rewrite (Hturn x Hin). rewrite serve_refused by lia. reflexivity.
    + rewrite (Hturn x Hin). cbn [fst snd]. set (c := Sigpipe.conn x) in *.
      assert (Hfd : (Server.accepted c <? 0) = false) by lia.
      split; [reflexivity|]. split.
      { rewrite serve_stderr. now rewrite Hfd. }
      rewrite serve_calls. unfold ordered_steps. rewrite Hfd.
      split; [reflexivity|]. split.
      * rewrite serve_accepted by assumption. cbn [fst].
        apply in_cons, in_cons, in_or_app. right. simpl. auto 10.
      * intros ->. reflexivity.
Qed.

Lemma C3_accept_loop_continues_witness :
  0 <= Server.socket_ret Scenario.started
  /\ 0 <= Server.bind_ret Scenario.started
  /\ 0 <= Server.listen_ret Scenario.started
  /\ forallb (fun x => negb (Sigpipe.broken x))
       [Sigpipe.returning Scenario.refused; Sigpipe.returning Scenario.silent;
        Sigpipe.returning Scenario.hello] = true
  /\ snd (Sigpipe.main Scenario.started
            [Sigpipe.returning Scenario.refused; Sigpipe.returning Scenario.silent;
             Sigpipe.returning Scenario.hello]) = Sigpipe.Running.
Proof.
  split; [simpl; lia|]. split; [simpl; lia|]. split; [simpl; lia|].
  split; [reflexivity|].
  exact (proj1 (C3_accept_loop_continues Scenario.started
                  [Sigpipe.returning Scenario.refused;
                   Sigpipe.returning Scenario.silent;
                   Sigpipe.returning Scenario.hello]
                  ltac:(simpl; lia) ltac:(simpl; lia) ltac:(simpl; lia)
                  eq_refl)).
Defined.

(** ** C7: the steps of a turn and their order *)

(** C7, as stated, fails on a connection on which three of the five bytes
    of the message have arrived when the server reads, and on which [send]
    takes 10 of the bytes it is offered.  The turn calls [recv] once: it
    returns 3, which is neither the buffer cap nor the half-close, and there
    is no second read.  It calls [send] once: the acknowledgment, of 36
    bytes and for the three bytes read, is not written fully, and there is
    no second write before [close]. *)
Lemma C7_counterexample :
  calls (fst (Server.serve 3 Scenario.partial))
  = [Accept 3 4;
     Recv 4 255 3;
     Send 4 (C.lit "SERVER ACK: Received 'HEL' (3 bytes)") 10;
     Close 4]
  /\ (0 < 3 < 255)
  /\ 10 < Z.of_nat (length (C.lit "SERVER ACK: Received 'HEL' (3 bytes)")).
Proof. split; [reflexivity|]. split; [lia|]. vm_compute. reflexivity. Qed.

(** C7, amended: the system calls of every turn are those of
    [described_turn]: [accept]; then on a connection exactly one [recv] of
    at most 255 bytes, which takes what has arrived and is not repeated, one
    [send] that is given the whole acknowledgment of the string read and is
    not repeated whatever count it returns, and [close].  For a message
    without NUL of at most 198 bytes that is read whole, the acknowledgment
    is [SERVER ACK: Received '] + message + [' (] + length + [ bytes)].
    While every [send] returns, the calls of the loop are those of its
    turns one after the other, each turn ended before the next [accept],
    and the loop is at its head again. *)
Theorem C7_connection_steps (server_socket : Z) (xs : list Sigpipe.session) :
  forallb (fun x => negb (Sigpipe.broken x)) xs = true ->
  calls (fst (Sigpipe.loop server_socket xs))
  = flat_map (fun x => described_turn server_socket (Sigpipe.conn x)) xs
  /\ snd (Sigpipe.loop server_socket xs) = Sigpipe.Running
  /\ (forall c, calls (fst (Server.serve server_socket c))
                = described_turn server_socket c)
  /\ (forall a, -1 <= Server.received a <= 255)
  /\ (forall data last behind,
         C.no_nul data = true -> (length data <= 198)%nat ->
         acknowledgment_text (message_read (Arrived data)) last behind
         = C.lit "SERVER ACK: Received '" ++ data ++ C.lit "' ("
             ++ C.decimal (Z.of_nat (length data)) ++ C.lit " bytes)").
Proof.
  intros Hx. rewrite loop_alive by now apply not_broken_alive.
  rewrite accept_loop_trace. cbn [fst snd].
  split; [|split; [reflexivity|split; [|split]]].
  - clear Hx. induction xs as [|x xs IH]; [reflexivity|].
    cbn [map flat_map]. now rewrite calls_app, serve_described, IH.
  - intros c. apply serve_described.
  - intros [|data]; cbn [Server.received]; [lia|].
    unfold Server.delivered. rewrite length_firstn.
    change (Server.BUFFER_SIZE - 1)%nat with 255%nat. lia.
  - intros data last behind Ht Hl.
    unfold message_read, acknowledgment_text.
    rewrite (@firstn_all2 _ 255 data) by lia. rewrite (cstr_text data Ht).
    replace (length data <? 199)%nat with true
      by (symmetry; apply Nat.ltb_lt; lia).
    apply firstn_all2.
    pose proof (decimal_length (length data) ltac:(lia)) as Hd.
    rewrite !length_app.
    change (length (C.lit "SERVER ACK: Received '")) with 22%nat.
    change (length (C.lit "' (")) with 3%nat.
    change (length (C.lit " bytes)")) with 7%nat.
    lia.
Qed.

Lemma C7_connection_steps_witness :
  forallb (fun x => negb (Sigpipe.broken x))
    [Sigpipe.returning Scenario.refused; Sigpipe.returning Scenario.hello] = true
  /\ calls (fst (Sigpipe.loop 3 [Sigpipe.returning Scenario.refused;
                                 Sigpipe.returning Scenario.hello]))
     = [Accept 3 (-1);
        Accept 3 4; Recv 4 255 5;
        Send 4 (C.lit "SERVER ACK: Received 'HELLO' (5 bytes)") 38; Close 4].
Proof.
  split; [reflexivity|].
  exact (proj1 (C7_connection_steps 3
                  [Sigpipe.returning Scenario.refused;
                   Sigpipe.returning Scenario.hello] eq_refl)).
Defined.

(** ** C10: messages of 199 bytes and more *)

Section LongMessages.

Import C.

Lemma terminated_text (s : list byte) : no_nul s = true -> terminated s = false.
Proof.
  unfold terminated, no_nul.
  induction s as [|b s IH]; simpl; [reflexivity|].
  intros [Hb Hs]%andb_prop. rewrite (IH Hs).
  now destruct (is_nul b).
Qed.

Lemma terminated_field (m junk : list byte) :
  no_nul m = true -> (199 <= length m)%nat ->
  terminated (Server.message_field m junk) = is_nul (Server.last_byte junk).
Proof.
  intros Ht Hl. rewrite message_field_long by assumption.
  unfold terminated. rewrite existsb_app.
  fold (terminated (firstn 199 m)).
  rewrite terminated_text by now apply no_nul_firstn.
  simpl. apply orb_false_r.
Qed.

(** Received bytes without NUL are taken as the message, up to the 255
    that [recv] hands over. *)
Lemma taken_text_length (data : list byte) :
  no_nul data = true ->
  length (Server.taken (Arrived data)) = Nat.min 255 (length data).
Proof.
  intros Hd. rewrite taken_arrived. unfold Server.delivered.
  rewrite cstr_text by now apply no_nul_firstn.
  apply length_firstn.
Qed.

End LongMessages.

(** C10: when the message the server takes from its buffer has 199
    characters or more, [msg.message] receives 199 of them and keeps in its
    last byte what the stack held there, so that it ends with NUL only when
    the stack happened to hold NUL; the field is printed as a string all
    the same, the characters found from its last byte on going into the
    acknowledgment; and the length printed is that of the message in the
    buffer (for received bytes without NUL: their count, at most 255), not
    the 199 of the copy. *)
Theorem C10_long_message_copy (server_socket : Z) (c : Server.connection) :
  let m := Server.taken (Server.arrives c) in
  let field := Server.message_field m (Server.junk c) in
  let last := Server.last_byte (Server.junk c) in
  0 <= Server.accepted c ->
  (199 <= length m)%nat ->
  field = firstn 199 m ++ [last]
  /\ length field = Server.MESSAGE_SIZE
  /\ C.terminated field = C.is_nul last
  /\ In (Stdout (LMessage (firstn 199 m ++ C.cstr (last :: Server.behind c))))
        (fst (Server.serve server_socket c))
  /\ In (Stdout (LLength (Z.of_nat (length m))))
        (fst (Server.serve server_socket c))
  /\ Exchange.offered (fst (Server.serve server_socket c))
     = firstn 255
         (C.lit "SERVER ACK: Received '"
            ++ (firstn 199 m ++ C.cstr (last :: Server.behind c))
            ++ C.lit "' (" ++ C.decimal (Z.of_nat (length m)) ++ C.lit " bytes)")
  /\ (forall data, Server.arrives c = Arrived data -> C.no_nul data = true ->
       length m = Nat.min 255 (length data)).
Proof.
  intros m field last Hfd Hl.
  assert (Ht : C.no_nul m = true) by apply taken_text.
  assert (Hs : (Server.accepted c <? 0) = false) by lia.
  assert (He : Server.echoed m (Server.junk c) (Server.behind c)
               = firstn 199 m ++ C.cstr (last :: Server.behind c))
    by now apply echoed_long.
  split; [now apply message_field_long|].
  split.
  { subst field. rewrite message_field_long by assumption.
    rewrite length_app, length_firstn, Nat.min_l by lia. reflexivity. }
  split; [now apply terminated_field|].
  rewrite offered_serve by assumption.
  rewrite serve_accepted by assumption. cbn [fst]. fold m. rewrite He.
  split; [|split].
  - apply in_cons, in_cons, in_or_app. right. simpl. auto.
  - apply in_cons, in_cons, in_or_app. right. simpl. auto.
  - split; [unfold Server.acknowledgment; now rewrite He|].
    intros data Ha Hd. subst m. rewrite Ha. apply taken_text_length, Hd.
Qed.

Lemma C10_long_message_copy_witness :
  0 <= Server.accepted Scenario.oversized_dirty
  /\ (199 <= length (Server.taken (Server.arrives Scenario.oversized_dirty)))%nat
  /\ C.terminated
       (Server.message_field (Server.taken (Server.arrives Scenario.oversized_dirty))
          (Server.junk Scenario.oversized_dirty))
     = false.
Proof.
  split; [simpl; lia|]. split; [vm_compute; lia|].
  exact (proj1 (proj2 (proj2
           (C10_long_message_copy 3 Scenario.oversized_dirty
              ltac:(simpl; lia) ltac:(vm_compute; lia))))).
Defined.

(** ** C5: input longer than the cap *)

(** C5, evaluated where it fails.  The client cuts its argument at 255
    bytes and [recv] hands over at most 255 bytes, but [msg.message] takes
    199: for an argument of 300 letters the client displays an
    acknowledgment that repeats 199 letters and says 255 bytes; for a
    message of 210 letters the acknowledgment repeats 199 letters (and, when
    the stack did not hold NUL there, what follows them in memory) and says
    210 bytes. *)
Theorem C5_oversized_message_handling :
  Client.request [C.lit "./client"; repeat "A"%byte 300] [] = repeat "A"%byte 255
  /\ Server.taken (Arrived (repeat "A"%byte 300)) = repeat "A"%byte 255
  /\ Exchange.roundtrip (repeat "A"%byte 300) (repeat x00 200) []
     = C.lit "SERVER ACK: Received '" ++ repeat "A"%byte 199
         ++ C.lit "' (255 bytes)"
  /\ Exchange.offered (fst (Server.serve 3 Scenario.oversized))
     = C.lit "SERVER ACK: Received '" ++ repeat "A"%byte 199
         ++ C.lit "' (210 bytes)"
  /\ Exchange.offered (fst (Server.serve 3 Scenario.oversized_dirty))
     = C.lit "SERVER ACK: Received '" ++ repeat "A"%byte 199
         ++ C.lit "#??' (210 bytes)".
Proof. repeat split; vm_compute; reflexivity. Qed.

(** ** C4: the exit status of the client *)

(** C4, as stated, fails when the connection is lost after it was
    established: [send] and [recv] both return -1, nothing is written to
    standard error, and the client returns 0. *)
Lemma C4_counterexample :
  Client.sent Scenario.cut_off = -1
  /\ Client.arrives Scenario.cut_off = RecvError
  /\ exit_status (Client.main Scenario.argv_hello Scenario.cut_off) = 0
  /\ stderr (fst (Client.main Scenario.argv_hello Scenario.cut_off)) = [].
Proof. repeat split. Qed.

(** C4, amended: the client exits with status 1, after one line on standard
    error, when [socket] fails ([Socket creation failed]) or [connect] fails
    ([Connection failed]); once connected it returns 0 and writes nothing to
    standard error, whatever [send] and [recv] return. *)
Theorem C4_exit_status (argv : list (list byte)) (e : Client.environment) :
  (Client.socket_ret e < 0 ->
   exit_status (Client.main argv e) = 1
   /\ stderr (fst (Client.main argv e)) = ["Socket creation failed"%string])
  /\ (0 <= Client.socket_ret e -> Client.connect_ret e < 0 ->
      exit_status (Client.main argv e) = 1
      /\ stderr (fst (Client.main argv e)) = ["Connection failed"%string])
  /\ (0 <= Client.socket_ret e -> 0 <= Client.connect_ret e ->
      exit_status (Client.main argv e) = 0
      /\ stderr (fst (Client.main argv e)) = []).
Proof.
  split; [|split].
  - intros Hs. now rewrite main_no_socket.
  - intros Hs Hc. now rewrite main_no_connection.
  - intros Hs Hc. rewrite main_connected by assumption.
    split; [reflexivity|]. cbn [fst].
    destruct (Client.sent e >? 0);
      destruct (Server.received (Client.arrives e) >? 0); reflexivity.
Qed.

Lemma C4_exit_status_witness :
  0 <= Client.socket_ret Scenario.unreachable
  /\ Client.connect_ret Scenario.unreachable < 0
  /\ exit_status (Client.main Scenario.argv_hello Scenario.unreachable) = 1.
Proof.
  split; [simpl; lia|]. split; [simpl; lia|].
  exact (proj1 (proj1 (proj2 (C4_exit_status Scenario.argv_hello Scenario.unreachable))
                  ltac:(simpl; lia) ltac:(simpl; lia))).
Defined.

(** ** C6: the client's socket *)

(** C6: once the client is connected its system calls are [send], [recv]
    and then [close] of the socket, in this order and whatever [send] and
    [recv] return, and it returns 0.  The two runs that end earlier, on a
    failed [connect] or without any socket, end in [exit(1)].  So a socket
    the client obtained is released in every run: closed by [close], or
    given back with the process by [exit]. *)
Theorem C6_socket_released (argv : list (list byte)) (e : Client.environment) :
  0 <= Client.socket_ret e ->
  released (Client.socket_ret e) (Client.main argv e)
  /\ (0 <= Client.connect_ret e ->
      calls (fst (Client.main argv e))
      = [Socket (Client.socket_ret e);
         Connect (Client.socket_ret e) (Client.connect_ret e);
         Send (Client.socket_ret e) (Client.request argv (Client.junk e))
              (Client.sent e);
         Recv (Client.socket_ret e) 255 (Server.received (Client.arrives e));
         Close (Client.socket_ret e)]
      /\ snd (Client.main argv e) = Done 0)
  /\ (Client.connect_ret e < 0 ->
      calls (fst (Client.main argv e))
      = [Socket (Client.socket_ret e);
         Connect (Client.socket_ret e) (Client.connect_ret e)]
      /\ snd (Client.main argv e) = Exited 1).
Proof.
  intros Hs.
  assert (Hcalls : 0 <= Client.connect_ret e ->
            calls (fst (Client.main argv e))
            = [Socket (Client.socket_ret e);
               Connect (Client.socket_ret e) (Client.connect_ret e);
               Send (Client.socket_ret e) (Client.request argv (Client.junk e))
                    (Client.sent e);
               Recv (Client.socket_ret e) 255 (Server.received (Client.arrives e));
               Close (Client.socket_ret e)]
            /\ snd (Client.main argv e) = Done 0).
  { intros Hc. rewrite main_connected by assumption.
    split; [|reflexivity]. cbn [fst].
    destruct (Client.sent e >? 0);
      destruct (Server.received (Client.arrives e) >? 0); reflexivity. }
  split; [|split; [exact Hcalls|]].
  - destruct (Z_lt_le_dec (Client.connect_ret e) 0) as [Hc|Hc].
    + right. exists 1. now rewrite main_no_connection.
    + left. destruct (Hcalls Hc) as [Hk _].
      assert (Hin : In (Close (Client.socket_ret e)) (calls (fst (Client.main argv e))))
        by (rewrite Hk; simpl; auto 10).
      unfold calls in Hin. now apply filter_In in Hin.
  - intros Hc. now rewrite main_no_connection.
Qed.

Lemma C6_socket_released_witness :
  0 <= Client.socket_ret Scenario.cut_off
  /\ released (Client.socket_ret Scenario.cut_off)
       (Client.main Scenario.argv_hello Scenario.cut_off).
Proof.
  split; [simpl; lia|].
  exact (proj1 (C6_socket_released Scenario.argv_hello Scenario.cut_off
                  ltac:(simpl; lia))).
Defined.

(** ** C8: the counts of a write and of a read *)

(** C8, as stated, fails on a client whose [send] takes 3 of the 5 bytes of
    HELLO.  The short write is reported as a success: the count is printed
    behind the success mark, nothing goes to standard error, the run goes on
    with [recv] and [close] as after a full write, and the client returns
    0.  On the side of the server, a read that hands over three of five
    bytes is acknowledged as a message of three bytes. *)
Lemma C8_counterexample :
  Client.request Scenario.argv_hello [] = C.lit "HELLO"
  /\ Client.sent Scenario.short_write = 3
  /\ stdout (fst (Client.send_via_tcp 3 (C.lit "HELLO") 3))
     = [LDataLength 5; LSentMarked 3]
  /\ calls (fst (Client.main Scenario.argv_hello Scenario.short_write))
     = [Socket 3; Connect 3 0; Send 3 (C.lit "HELLO") 3; Recv 3 255 36; Close 3]
  /\ In (Stdout (LSentMarked 3))
        (fst (Client.main Scenario.argv_hello Scenario.short_write))
  /\ stderr (fst (Client.main Scenario.argv_hello Scenario.short_write)) = []
  /\ exit_status (Client.main Scenario.argv_hello Scenario.short_write) = 0
  /\ Exchange.offered (fst (Server.serve 3 Scenario.partial))
     = C.lit "SERVER ACK: Received 'HEL' (3 bytes)".
Proof.
  repeat split; try reflexivity.
  vm_compute. auto 20.
Qed.

(** C8, amended: neither program compares the count transferred with the
    count offered, and a short count is not reported as a failure.
    [send_via_tcp] and [receive_via_tcp] return nothing to their caller and
    do nothing but the one call and the printing: the server prints the
    count offered ([Data Size]) and whatever [send] returned ([Sent]); the
    client prints the count offered ([Data Length]) and, when [send]
    returned a count above 0, that count behind a success mark, nothing
    otherwise; a read prints the count [recv] returned when it is above 0.
    What follows does not depend on the count: the server's turn ends with
    the [Sent] line, [close] and its last line; the connected client goes on
    with [recv], the display and [close], writes nothing to standard error
    and returns 0. *)
Theorem C8_counts_are_printed :
  (forall fd data len answer,
      Server.send_via_tcp fd data len answer
      = ([Stdout (LDataSize len); Send fd (firstn len data) answer;
          Stdout (LSent answer)], Done tt))
  /\ (forall fd data answer,
      Client.send_via_tcp fd data answer
      = (Stdout (LDataLength (C.strlen data))
           :: Send fd (firstn (C.strlen data) data) answer
           :: (if answer >? 0 then [Stdout (LSentMarked answer)] else []),
         Done tt))
  /\ (forall fd a,
      fst (Server.receive_via_tcp fd (C.memset C.NUL Server.BUFFER_SIZE)
             Server.BUFFER_SIZE a)
      = Recv fd 255 (Server.received a)
          :: (if Server.received a >? 0
              then [Stdout (LReceived (Server.received a))] else [])
      /\ fst (Client.receive_via_tcp fd (C.memset C.NUL Client.BUFFER_SIZE)
                Client.BUFFER_SIZE a)
         = Recv fd 255 (Server.received a)
             :: (if Server.received a >? 0
                 then [Stdout (LReceived (Server.received a))] else []))
  /\ (forall server_socket c, 0 <= Server.accepted c ->
      exists before,
        fst (Server.serve server_socket c)
        = before
            ++ [Stdout (LDataSize
                          (length (Exchange.offered
                                     (fst (Server.serve server_socket c)))));
                Send (Server.accepted c)
                     (Exchange.offered (fst (Server.serve server_socket c)))
                     (Server.sent c);
                Stdout (LSent (Server.sent c));
                Close (Server.accepted c);
                Stdout LClosed]
        /\ snd (Server.serve server_socket c) = Done tt)
  /\ (forall argv e, 0 <= Client.socket_ret e -> 0 <= Client.connect_ret e ->
      let fd := Client.socket_ret e in
      let req := Client.request argv (Client.junk e) in
      let n := Server.received (Client.arrives e) in
      let reply := Server.taken (Client.arrives e) in
      Client.main argv e
      = ([Stdout (LUserInput (C.cstr (Client.choose_message argv)));
          Stdout (LMessageLength (C.strlen (Client.choose_message argv)));
          Socket fd;
          Connect fd (Client.connect_ret e);
          Stdout (LDataLength (length req));
          Send fd req (Client.sent e)]
           ++ (if Client.sent e >? 0
               then [Stdout (LSentMarked (Client.sent e))] else [])
           ++ Recv fd 255 n
           :: (if n >? 0 then [Stdout (LReceived n)] else [])
           ++ [Stdout (LMessage reply);
               Stdout (LResponseLength (length reply));
               Close fd],
         Done 0)
      /\ exit_status (Client.main argv e) = 0
      /\ stderr (fst (Client.main argv e)) = []).
Proof.
  split; [reflexivity|]. split.
  { intros fd data answer.
    unfold Client.send_via_tcp, send, printf, emit, ret. step_io.
    destruct (answer >? 0); reflexivity. }
  split.
  { intros fd a. rewrite client_receive_as_server.
    change Client.BUFFER_SIZE with Server.BUFFER_SIZE.
    rewrite receive_via_tcp_buffer. now split. }
  split.
  { intros server_socket c Hfd.
    assert (Hs : (Server.accepted c <? 0) = false) by lia.
    rewrite offered_serve by assumption.
    rewrite serve_accepted by assumption. cbn [fst snd].
    set (m := Server.taken (Server.arrives c)).
    exists (Accept server_socket (Server.accepted c)
              :: Recv (Server.accepted c) 255 (Server.received (Server.arrives c))
              :: (if Server.received (Server.arrives c) >? 0
                  then [Stdout (LReceived (Server.received (Server.arrives c)))]
                  else [])
              ++ [Stdout (LMessage (Server.echoed m (Server.junk c) (Server.behind c)));
                  Stdout (LLength (Z.of_nat (length m)));
                  Stdout (LResponse
                            (Server.acknowledgment m (Server.junk c) (Server.behind c)))]).
    split; [|reflexivity].
    destruct (Server.received (Server.arrives c) >? 0); reflexivity. }
  intros argv e Hs Hc. cbv zeta.
  rewrite main_connected by assumption.
  split; [reflexivity|]. split; [reflexivity|]. cbn [fst].
  destruct (Client.sent e >? 0);
    destruct (Server.received (Client.arrives e) >? 0); reflexivity.
Qed.

Lemma C8_counts_are_printed_witness :
  0 <= Client.socket_ret Scenario.short_write
  /\ 0 <= Client.connect_ret Scenario.short_write
  /\ exit_status (Client.main Scenario.argv_hello Scenario.short_write) = 0
  /\ stderr (fst (Client.main Scenario.argv_hello Scenario.short_write)) = [].
Proof.
  split; [simpl; lia|]. split; [simpl; lia|].
  exact (proj2 (proj2 (proj2 (proj2 (proj2 C8_counts_are_printed)))
                  Scenario.argv_hello Scenario.short_write
                  ltac:(simpl; lia) ltac:(simpl; lia))).
Defined.

(** ** C9: the command line of the client *)

(** C9: without an argument the message is the fixed default
    [Hello from TCP Client!]; with arguments it is the first one, the others
    are not looked at; and what a connected client offers to [send] is the
    message chosen, up to 255 bytes of it. *)
Theorem C9_message_argument :
  Client.choose_message [] = Client.DEFAULT_MESSAGE
  /\ (forall prog, Client.choose_message [prog] = Client.DEFAULT_MESSAGE)
  /\ (forall prog message rest,
         Client.choose_message (prog :: message :: rest) = message)
  /\ Client.DEFAULT_MESSAGE = C.lit "Hello from TCP Client!"
  /\ (forall argv e,
         0 <= Client.socket_ret e -> 0 <= Client.connect_ret e ->
         Exchange.offered (fst (Client.main argv e))
         = firstn 255 (C.cstr (Client.choose_message argv)))
  /\ firstn 255 (C.cstr Client.DEFAULT_MESSAGE) = Client.DEFAULT_MESSAGE.
Proof.
  split; [reflexivity|]. split; [reflexivity|]. split.
  - intros prog message rest. unfold Client.choose_message.
    assert (H : (Z.of_nat (length (prog :: message :: rest)) >? 1) = true)
      by (apply Z.gtb_lt; cbn [length]; lia).
    now rewrite H.
  - split; [reflexivity|]. split; [|reflexivity].
    intros argv e Hs Hc. rewrite main_connected by assumption.
    cbn [fst]. rewrite <- request_chosen with (junk := Client.junk e).
    reflexivity.
Qed.

Lemma C9_message_argument_witness :
  0 <= Client.socket_ret (Scenario.online [])
  /\ 0 <= Client.connect_ret (Scenario.online [])
  /\ Exchange.offered (fst (Client.main Scenario.argv_extra (Scenario.online [])))
     = firstn 255 (C.cstr (Client.choose_message Scenario.argv_extra)).
Proof.
  split; [simpl; lia|]. split; [simpl; lia|].
  exact (proj1 (proj2 (proj2 (proj2 (proj2 C9_message_argument))))
           Scenario.argv_extra (Scenario.online [])
           ltac:(simpl; lia) ltac:(simpl; lia)).
Defined.

(** * Further properties of the two programs *)

(** ** The start of the server *)

Section ServerStart.

Lemma start_no_socket (s : Server.startup) :
  Server.socket_ret s < 0 ->
  Server.start s
  = ([Socket (Server.socket_ret s); Perror "Socket creation failed"; ExitCall 1],
     Exited 1).
Proof.
  intros H. unfold Server.start, socket, perror, exit, emit, ret. step_io.
  replace (Server.socket_ret s <? 0) with true by lia. step_io. reflexivity.
Qed.

Lemma start_no_bind (s : Server.startup) :
  0 <= Server.socket_ret s -> Server.bind_ret s < 0 ->
  Server.start s
  = ([Socket (Server.socket_ret s);
      Setsockopt (Server.socket_ret s);
      Bind (Server.socket_ret s) Server.PORT (Server.bind_ret s);
      Perror "Bind failed"; ExitCall 1],
     Exited 1).
Proof.
  intros Hs Hb.
  unfold Server.start, socket, setsockopt, bind_port, perror, exit, emit, ret.
  step_io. replace (Server.socket_ret s <? 0) with false by lia.
  step_io. replace (Server.bind_ret s <? 0) with true by lia.
  step_io. reflexivity.
Qed.

Lemma start_no_listen (s : Server.startup) :
  0 <= Server.socket_ret s -> 0 <= Server.bind_ret s ->
  Server.listen_ret s < 0 ->
  Server.start s
  = ([Socket (Server.socket_ret s);
      Setsockopt (Server.socket_ret s);
      Bind (Server.socket_ret s) Server.PORT (Server.bind_ret s);
      Listen (Server.socket_ret s) 5 (Server.listen_ret s);
      Perror "Listen failed"; ExitCall 1],
     Exited 1).
Proof.
  intros Hs Hb Hl.
  unfold Server.start, socket, setsockopt, bind_port, listen, perror, exit,
    emit, ret.
  step_io. replace (Server.socket_ret s <? 0) with false by lia.
  step_io. replace (Server.bind_ret s <? 0) with false by lia.
  step_io. replace (Server.listen_ret s <? 0) with true by lia.
  step_io. reflexivity.
Qed.

End ServerStart.

(** X1: when [socket], [bind] or [listen] fails, the server writes the one
    reason to standard error and exits with status 1; it calls [accept] for
    no connection, whatever connections are waiting, and closes nothing. *)
Theorem server_start_failure (s : Server.startup) (cs : list Server.connection) :
  Server.socket_ret s < 0 \/ Server.bind_ret s < 0 \/ Server.listen_ret s < 0 ->
  snd (Server.main s cs) = Exited 1
  /\ stderr (fst (Server.main s cs))
     = [if Server.socket_ret s <? 0 then "Socket creation failed"
        else if Server.bind_ret s <? 0 then "Bind failed"
             else "Listen failed"]%string
  /\ (forall fd r, ~ In (Accept fd r) (fst (Server.main s cs)))
  /\ closed (fst (Server.main s cs)) = [].
Proof.
  intros H. unfold Server.main.
  destruct (Z.ltb_spec (Server.socket_ret s) 0) as [Hs|Hs].
  - rewrite start_no_socket by assumption. step_io.
    repeat split. intros fd r [E|[E|[E|[]]]]; discriminate.
  - destruct (Z.ltb_spec (Server.bind_ret s) 0) as [Hb|Hb].
    + rewrite start_no_bind by assumption. step_io.
      repeat split.
      intros fd r [E|[E|[E|[E|[E|[]]]]]]; discriminate.
    + assert (Hl : Server.listen_ret s < 0) by lia.
      rewrite start_no_listen by assumption. step_io.
      repeat split.
      intros fd r [E|[E|[E|[E|[E|[E|[]]]]]]]; discriminate.
Qed.

Lemma server_start_failure_witness :
  (Server.socket_ret {| Server.socket_ret := 3; Server.bind_ret := -1;
                        Server.listen_ret := 0 |} < 0
   \/ Server.bind_ret {| Server.socket_ret := 3; Server.bind_ret := -1;
                         Server.listen_ret := 0 |} < 0
   \/ Server.listen_ret {| Server.socket_ret := 3; Server.bind_ret := -1;
                           Server.listen_ret := 0 |} < 0)
  /\ stderr (fst (Server.main {| Server.socket_ret := 3; Server.bind_ret := -1;
                                 Server.listen_ret := 0 |}
                     [Scenario.hello]))
     = ["Bind failed"%string].
Proof.
  split; [right; left; simpl; lia|].
  exact (proj1 (proj2 (server_start_failure
                         {| Server.socket_ret := 3; Server.bind_ret := -1;
                            Server.listen_ret := 0 |}
                         [Scenario.hello]
                         ltac:(right; left; simpl; lia)))).
Defined.

(** ** Descriptors *)

Section Descriptors.

Lemma closed_app (t u : trace) : closed (t ++ u) = closed t ++ closed u.
Proof. apply flat_map_app. Qed.

Lemma delivered_sockets_app (t u : trace) :
  delivered_sockets (t ++ u) = delivered_sockets t ++ delivered_sockets u.
Proof. apply flat_map_app. Qed.

Lemma serve_closed (server_socket : Z) (c : Server.connection) :
  closed (fst (Server.serve server_socket c))
  = (if Server.accepted c <? 0 then [] else [Server.accepted c])
  /\ delivered_sockets (fst (Server.serve server_socket c))
     = (if Server.accepted c <? 0 then [] else [Server.accepted c]).
Proof.
  destruct (accepted_sign (Server.accepted c)) as [H|H]; rewrite H.
  - rewrite serve_refused by assumption. cbn. now rewrite H.
  - rewrite serve_accepted by assumption. cbn [fst].
    destruct (Server.received (Server.arrives c) >? 0); cbn; now rewrite H.
Qed.

End Descriptors.

Section DescriptorsOfRuns.

Lemma in_closed (fd : Z) (t : trace) : In (Close fd) t <-> In fd (closed t).
Proof.
  unfold closed. rewrite in_flat_map. split.
  - intros H. exists (Close fd). split; [assumption|now left].
  - intros [e [He Hfd]]. destruct e; try contradiction.
    destruct Hfd as [<-|[]]. assumption.
Qed.

(** A turn closes what it was delivered, unless it ends in its [send]. *)
Lemma turn_balance (server_socket : Z) (x : Sigpipe.session) :
  let fd := Server.accepted (Sigpipe.conn x) in
  (Sigpipe.dies x = true ->
   exists t data,
     Sigpipe.turn server_socket x = (t, Sigpipe.Killed fd data)
     /\ closed t = [] /\ delivered_sockets t = [fd] /\ 0 <= fd)
  /\ (Sigpipe.dies x = false ->
      exists t,
        Sigpipe.turn server_socket x = (t, Sigpipe.Running)
        /\ closed t = delivered_sockets t
        /\ closed t = if fd <? 0 then [] else [fd]).
Proof.
  intros fd. split; intros H.
  - rewrite turn_dead by assumption. eexists _, _. split; [reflexivity|].
    apply andb_prop in H as [_ Hfd]. apply negb_true_iff in Hfd. fold fd in Hfd.
    destruct (Server.received (Server.arrives (Sigpipe.conn x)) >? 0);
      cbn; fold fd; rewrite Hfd; repeat split; lia.
  - rewrite turn_alive by assumption. eexists. split; [reflexivity|].
    destruct (serve_closed server_socket (Sigpipe.conn x)) as [Hc Hd].
    fold fd in Hc, Hd. now rewrite Hc, Hd.
Qed.

Lemma loop_balance (server_socket : Z) (xs : list Sigpipe.session) :
  let t := fst (Sigpipe.loop server_socket xs) in
  match snd (Sigpipe.loop server_socket xs) with
  | Sigpipe.Killed fd _ => delivered_sockets t = closed t ++ [fd]
  | _ => closed t = delivered_sockets t
  end
  /\ (forall fd, In fd (closed t) ->
        exists x, In x xs /\ Server.accepted (Sigpipe.conn x) = fd /\ 0 <= fd).
Proof.
  induction xs as [|x xs IH]; [split; [reflexivity|intros fd []]|].
  cbn zeta in *. cbn [Sigpipe.loop].
  destruct (turn_balance server_socket x) as [Hdead Halive].
  destruct (Sigpipe.dies x) eqn:D.
  - destruct (Hdead eq_refl) as [t [data [-> [Hc [Hd Hfd]]]]]. cbn [fst snd].
    rewrite Hc, Hd. split; [reflexivity|intros fd []].
  - destruct (Halive eq_refl) as [t [-> [Hb Hc]]].
    destruct (Sigpipe.loop server_socket xs) as [t' st]. cbn [fst snd] in *.
    destruct IH as [IHb IHin]. rewrite closed_app, delivered_sockets_app.
    split.
    + destruct st; rewrite <- Hb; [now rewrite IHb|now rewrite IHb|].
      now rewrite IHb, app_assoc.
    + intros fd [Hin|Hin]%in_app_or.
      * rewrite Hc in Hin.
        destruct (Z.ltb_spec (Server.accepted (Sigpipe.conn x)) 0) as [Hneg|Hpos];
          [destruct Hin|].
        destruct Hin as [<-|[]]. exists x. repeat split; [now left|assumption].
      * destruct (IHin fd Hin) as [y [Hy Hfd]]. exists y. split; [now right|assumption].
Qed.

End DescriptorsOfRuns.

(** X2: in every run of the server, also one that ends in a failed start or
    in the signal of a broken connection, every descriptor the server
    closes is one that [accept] delivered, and the descriptors delivered are
    closed each once and in the order of delivery, with one exception: a run
    that ends in a [send] leaves the descriptor of that turn unclosed.  The
    listening socket is not closed in any run (its descriptor being none of
    those [accept] returns). *)
Theorem server_closes_what_it_accepts (s : Server.startup) (xs : list Sigpipe.session) :
  let t := fst (Sigpipe.main s xs) in
  match snd (Sigpipe.main s xs) with
  | Sigpipe.Killed fd _ => delivered_sockets t = closed t ++ [fd]
  | _ => closed t = delivered_sockets t
  end
  /\ (forall fd, In (Close fd) t ->
        exists x, In x xs /\ Server.accepted (Sigpipe.conn x) = fd /\ 0 <= fd)
  /\ (Forall (fun x => Server.accepted (Sigpipe.conn x) <> Server.socket_ret s) xs ->
      ~ In (Close (Server.socket_ret s)) t).
Proof.
  assert (Main :
    let t := fst (Sigpipe.main s xs) in
    match snd (Sigpipe.main s xs) with
    | Sigpipe.Killed fd _ => delivered_sockets t = closed t ++ [fd]
    | _ => closed t = delivered_sockets t
    end
    /\ (forall fd, In fd (closed t) ->
          exists x, In x xs /\ Server.accepted (Sigpipe.conn x) = fd /\ 0 <= fd)).
  { unfold Sigpipe.main.
    destruct (Z.ltb_spec (Server.socket_ret s) 0) as [Hs|Hs];
      [rewrite start_no_socket by assumption; split; [reflexivity|intros fd []]|].
    destruct (Z.ltb_spec (Server.bind_ret s) 0) as [Hb|Hb];
      [rewrite start_no_bind by assumption; split; [reflexivity|intros fd []]|].
    destruct (Z.ltb_spec (Server.listen_ret s) 0) as [Hl|Hl];
      [rewrite start_no_listen by assumption; split; [reflexivity|intros fd []]|].
    rewrite start_ok by assumption.
    pose proof (loop_balance (Server.socket_ret s) xs) as L. cbn zeta in L.
    destruct (Sigpipe.loop (Server.socket_ret s) xs) as [t' st].
    cbn [fst snd] in *. rewrite closed_app, delivered_sockets_app.
    exact L. }
  cbn zeta in *. destruct Main as [Hbal Hin].
  split; [exact Hbal|]. split.
  - intros fd H. apply Hin, in_closed, H.
  - intros Hdiff H. apply in_closed in H.
    destruct (Hin _ H) as [x [Hx [Hfd _]]].
    rewrite Forall_forall in Hdiff. exact (Hdiff x Hx Hfd).
Qed.

Lemma server_closes_what_it_accepts_witness :
  Forall (fun x => Server.accepted (Sigpipe.conn x) <> Server.socket_ret Scenario.started)
    [Sigpipe.returning Scenario.refused; Sigpipe.returning Scenario.hello;
     Sigpipe.resetting Scenario.reset; Sigpipe.returning Scenario.hello]
  /\ ~ In (Close (Server.socket_ret Scenario.started))
         (fst (Sigpipe.main Scenario.started
                 [Sigpipe.returning Scenario.refused; Sigpipe.returning Scenario.hello;
                  Sigpipe.resetting Scenario.reset; Sigpipe.returning Scenario.hello])).
Proof.
  assert (H : Forall (fun x => Server.accepted (Sigpipe.conn x)
                               <> Server.socket_ret Scenario.started)
                [Sigpipe.returning Scenario.refused; Sigpipe.returning Scenario.hello;
                 Sigpipe.resetting Scenario.reset; Sigpipe.returning Scenario.hello])
    by (repeat constructor; simpl; lia).
  split; [exact H|].
  exact (proj2 (proj2 (server_closes_what_it_accepts Scenario.started
                         [Sigpipe.returning Scenario.refused;
                          Sigpipe.returning Scenario.hello;
                          Sigpipe.resetting Scenario.reset;
                          Sigpipe.returning Scenario.hello])) H).
Defined.

(** ** What the server offers and reports *)

Section Offered.

Import C.

Lemma cstr_whole_iff (s : list byte) :
  length (cstr s) = length s <-> no_nul s = true.
Proof.
  split.
  - induction s as [|b s IH]; simpl; [reflexivity|].
    destruct (is_nul b); simpl; [discriminate|].
    intros H. apply IH. now injection H.
  - intros H. now rewrite cstr_text.
Qed.

Lemma acknowledgment_prefix (m junk behind : list byte) :
  firstn 22 (Server.acknowledgment m junk behind) = lit "SERVER ACK: Received '".
Proof.
  unfold Server.acknowledgment. rewrite firstn_firstn.
  change (Nat.min 22 (Server.BUFFER_SIZE - 1)) with 22%nat.
  rewrite firstn_app.
  change (length (lit "SERVER ACK: Received '")) with 22%nat.
  rewrite Nat.sub_diag. cbn [firstn]. rewrite app_nil_r.
  reflexivity.
Qed.

Lemma firstn_text_NUL (p q : list byte) (n : nat) :
  (length p < n)%nat ->
  cstr (firstn n (p ++ NUL :: q)) = cstr p.
Proof.
  intros H. rewrite firstn_app.
  rewrite (@firstn_all2 _ n p) by lia.
  replace (n - length p)%nat with (S (n - length p - 1)) by lia.
  cbn [firstn]. apply cstr_app_NUL.
Qed.

End Offered.

(** X3: on every connection, whatever arrives and whatever the memory of
    the server holds, the bytes offered to [send] are at most 255, hold no
    NUL, and start with the 22 characters [SERVER ACK: Received ']; the
    [Data Size] line shows their count. *)
Theorem acknowledgment_bounds (server_socket : Z) (c : Server.connection) :
  0 <= Server.accepted c ->
  let ack := Exchange.offered (fst (Server.serve server_socket c)) in
  (length ack <= 255)%nat
  /\ C.no_nul ack = true
  /\ firstn 22 ack = C.lit "SERVER ACK: Received '"
  /\ In (Stdout (LDataSize (length ack))) (fst (Server.serve server_socket c)).
Proof.
  intros Hfd ack.
  assert (Hs : (Server.accepted c <? 0) = false) by lia.
  subst ack. rewrite offered_serve by assumption.
  split; [apply acknowledgment_length|].
  split; [apply acknowledgment_no_nul|].
  split; [apply acknowledgment_prefix|].
  rewrite serve_accepted by assumption. cbn [fst].
  apply in_cons, in_cons, in_or_app. right. simpl. auto 10.
Qed.

Lemma acknowledgment_bounds_witness :
  0 <= Server.accepted Scenario.oversized_dirty
  /\ (length (Exchange.offered (fst (Server.serve 3 Scenario.oversized_dirty)))
      <= 255)%nat.
Proof.
  split; [simpl; lia|].
  exact (proj1 (acknowledgment_bounds 3 Scenario.oversized_dirty
                  ltac:(simpl; lia))).
Defined.

(** X5: the length the server prints for a connection is the length of the
    string in its buffer: it lies between 0 and 255, it is 0 when [recv]
    failed, it never exceeds the count [recv] returned, and it equals that
    count exactly when the bytes handed over hold no NUL. *)
Theorem reported_length (server_socket : Z) (c : Server.connection) :
  0 <= Server.accepted c ->
  let n := length (Server.taken (Server.arrives c)) in
  In (Stdout (LLength (Z.of_nat n))) (fst (Server.serve server_socket c))
  /\ (n <= 255)%nat
  /\ (Server.arrives c = RecvError -> n = 0%nat)
  /\ (forall data, Server.arrives c = Arrived data ->
        Z.of_nat n <= Server.received (Server.arrives c)
        /\ (Z.of_nat n = Server.received (Server.arrives c)
            <-> C.no_nul (firstn 255 data) = true)).
Proof.
  intros Hfd n.
  assert (Hs : (Server.accepted c <? 0) = false) by lia.
  split.
  { rewrite serve_accepted by assumption. cbn [fst].
    apply in_cons, in_cons, in_or_app. right. simpl. auto. }
  split; [apply taken_length|].
  split; [intros Ha; subst n; now rewrite Ha|].
  intros data Ha. subst n. rewrite Ha, taken_arrived.
  cbn [Server.received].
  change (firstn 255 data) with (Server.delivered data).
  pose proof (cstr_length_le (Server.delivered data)) as Hle.
  split; [lia|].
  rewrite <- cstr_whole_iff. split; intros H; lia.
Qed.

Lemma reported_length_witness :
  0 <= Server.accepted Scenario.reset
  /\ In (Stdout (LLength 0)) (fst (Server.serve 3 Scenario.reset)).
Proof.
  split; [simpl; lia|].
  exact (proj1 (reported_length 3 Scenario.reset ltac:(simpl; lia))).
Defined.

(** X6: bytes that arrive behind a NUL are dropped.  When the bytes that
    arrive are a text [p] of at most 254 bytes, a NUL, and anything more,
    the server takes [p] as the message and offers the acknowledgment it
    offers for [p] alone. *)
Theorem bytes_behind_nul_are_dropped (p q junk behind : list byte) :
  C.no_nul p = true -> (length p <= 254)%nat ->
  Server.taken (Arrived (p ++ C.NUL :: q)) = p
  /\ Exchange.reply (p ++ C.NUL :: q) junk behind = Exchange.reply p junk behind.
Proof.
  intros Hp Hl.
  assert (Ht : Server.taken (Arrived (p ++ C.NUL :: q)) = p).
  { rewrite taken_arrived. unfold Server.delivered.
    change (Server.BUFFER_SIZE - 1)%nat with 255%nat.
    rewrite firstn_text_NUL by lia. now apply cstr_text. }
  split; [exact Ht|].
  rewrite !reply_acknowledgment, Ht.
  now rewrite taken_whole by (assumption || lia).
Qed.

Lemma bytes_behind_nul_are_dropped_witness :
  C.no_nul (C.lit "HELLO") = true
  /\ (length (C.lit "HELLO") <= 254)%nat
  /\ Exchange.reply (C.lit "HELLO" ++ C.NUL :: C.lit "WORLD") [] []
     = Exchange.reply (C.lit "HELLO") [] [].
Proof.
  split; [reflexivity|]. split; [simpl; lia|].
  exact (proj2 (bytes_behind_nul_are_dropped (C.lit "HELLO") (C.lit "WORLD") [] []
                  eq_refl ltac:(simpl; lia))).
Defined.

(** X7: one exchange, end to end.  For every argument that is not the empty
    string, over a network that delivers each write whole, the client offers
    the first 255 bytes of the argument, and what it displays is exactly
    what the server offered for them: nothing of the acknowledgment is cut
    or lost on the way back, whatever the memory of the server holds. *)
Theorem exchange_end_to_end (message junk behind : list byte) :
  C.cstr message <> [] ->
  let request := Client.request [C.lit "client"; message] [] in
  request = firstn 255 (C.cstr message)
  /\ request <> []
  /\ Exchange.roundtrip message junk behind = Exchange.reply request junk behind
  /\ Exchange.roundtrip message junk behind
     = Server.acknowledgment request junk behind.
Proof.
  intros Hne request.
  assert (Hreq : request = firstn 255 (C.cstr message))
    by (subst request; now rewrite request_chosen).
  assert (Ht : Server.taken (Arrived request) = request).
  { rewrite Hreq. apply taken_whole.
    - apply no_nul_firstn, no_nul_cstr.
    - rewrite length_firstn. lia. }
  split; [exact Hreq|]. split.
  - rewrite Hreq. destruct (C.cstr message); [contradiction|discriminate].
  - rewrite reply_acknowledgment, Ht, roundtrip_reply, <- Hreq. now split.
Qed.

Lemma exchange_end_to_end_witness :
  C.cstr Scenario.long_message <> []
  /\ Exchange.roundtrip Scenario.long_message (repeat x00 200) []
     = Exchange.reply (Client.request [C.lit "client"; Scenario.long_message] [])
         (repeat x00 200) [].
Proof.
  split; [vm_compute; discriminate|].
  exact (proj1 (proj2 (proj2
           (exchange_end_to_end Scenario.long_message (repeat x00 200) []
              ltac:(vm_compute; discriminate))))).
Defined.

(** ** The two buffers *)

Section Buffers.

Import C.

Lemma skipn_next (k : nat) (l : list byte) :
  (k < length l)%nat -> skipn k l = nth k l NUL :: skipn (S k) l.
Proof.
  revert l. induction k as [|k IH]; intros [|x l] H; simpl in H; try lia.
  - reflexivity.
  - cbn [skipn nth]. rewrite IH by lia. reflexivity.
Qed.

Lemma terminated_app_NUL (s r : list byte) : terminated (s ++ NUL :: r) = true.
Proof.
  unfold terminated. rewrite existsb_app. cbn [existsb].
  change (is_nul NUL) with true. cbn [orb]. apply orb_true_r.
Qed.

Lemma repeat_snoc (n : nat) : repeat NUL n ++ [NUL] = repeat NUL (S n).
Proof. induction n as [|n IH]; simpl; [reflexivity|]. now rewrite IH. Qed.

Lemma C_cstr_pad (s : list byte) (n : nat) :
  no_nul s = true -> cstr (s ++ repeat NUL n) = s.
Proof.
  intros H. rewrite cstr_text_app by assumption.
  destruct n; simpl; apply app_nil_r.
Qed.

(** [recv] into a buffer that has room for the bytes and one more. *)
Lemma received_into (fd : Z) (buffer : list byte) (max_length : nat)
      (data : list byte) :
  length buffer = max_length -> (1 <= max_length)%nat ->
  let got := firstn (max_length - 1) data in
  got <> [] ->
  Server.receive_via_tcp fd buffer max_length (Arrived data)
  = ([Recv fd (max_length - 1) (Z.of_nat (length got));
      Stdout (LReceived (Z.of_nat (length got)))],
     Done (got ++ NUL :: skipn (S (length got)) buffer)).
Proof.
  intros Hb Hm got Hgot.
  assert (Hlen : (length got < length buffer)%nat)
    by (subst got; rewrite length_firstn; lia).
  unfold Server.receive_via_tcp, recv, emit, ret, printf, emit, fill.
  fold got. step_io.
  assert (Hpos : (Z.of_nat (length got) >? 0) = true).
  { apply Z.gtb_lt. destruct got as [|x got']; [now elim Hgot|].
    cbn [length]. lia. }
  rewrite Hpos. step_io. rewrite Nat2Z.id.
  rewrite (skipn_next _ _ Hlen), store_app. reflexivity.
Qed.

Lemma received_nothing (fd : Z) (buffer : list byte) (max_length : nat)
      (a : arrival) :
  a = RecvError
  \/ (exists data, a = Arrived data /\ firstn (max_length - 1) data = []) ->
  Server.receive_via_tcp fd buffer max_length a
  = ([Recv fd (max_length - 1) (match a with RecvError => -1 | Arrived _ => 0 end)],
     Done buffer).
Proof.
  intros [->|[data [-> Hd]]]; [reflexivity|].
  unfold Server.receive_via_tcp, recv, emit, ret, fill.
  rewrite Hd. reflexivity.
Qed.

End Buffers.

(** X4: [receive_via_tcp], of the server and of the client, on a buffer of
    [max_length] bytes.  The buffer keeps its size.  When bytes arrive, at
    most [max_length - 1] of them are put at its start and a NUL behind
    them, inside the buffer: the buffer is terminated, its string is the
    string of the bytes handed over, and the bytes behind the NUL are left
    as they were.  When [recv] fails or hands over nothing the buffer is
    returned as it was given, so that it is terminated only if the caller
    made it so. *)
Theorem receive_keeps_buffer (fd : Z) (buffer : list byte) (max_length : nat)
        (a : arrival) :
  length buffer = max_length -> (1 <= max_length)%nat ->
  exists t b,
    Server.receive_via_tcp fd buffer max_length a = (t, Done b)
    /\ Client.receive_via_tcp fd buffer max_length a = (t, Done b)
    /\ length b = max_length
    /\ (forall data, a = Arrived data ->
          let got := firstn (max_length - 1) data in
          got <> [] ->
          C.terminated b = true
          /\ C.cstr b = C.cstr got
          /\ firstn (length got) b = got
          /\ skipn (S (length got)) b = skipn (S (length got)) buffer)
    /\ (a = RecvError
        \/ (exists data, a = Arrived data /\ firstn (max_length - 1) data = []) ->
        b = buffer).
Proof.
  intros Hb Hm. rewrite client_receive_as_server.
  destruct a as [|data].
  - exists [Recv fd (max_length - 1) (-1)], buffer.
    split; [reflexivity|]. split; [reflexivity|]. split; [assumption|].
    split; [discriminate|reflexivity].
  - destruct (firstn (max_length - 1) data) as [|x got'] eqn:Hgot.
    + exists [Recv fd (max_length - 1) 0], buffer.
      split; [apply received_nothing; right; now exists data|].
      split; [apply received_nothing; right; now exists data|].
      split; [assumption|]. split; [|reflexivity].
      intros data' [= <-] got. subst got. rewrite Hgot. contradiction.
    + set (got := x :: got') in *.
      assert (Hne : firstn (max_length - 1) data <> [])
        by (rewrite Hgot; discriminate).
      assert (Hlen : (length got < length buffer)%nat)
        by (rewrite <- Hgot, length_firstn; lia).
      pose proof (received_into fd buffer max_length data Hb Hm Hne) as R.
      cbv zeta in R. rewrite Hgot in R. fold got in R.
      eexists _, _. split; [exact R|]. split; [exact R|].
      split.
      { rewrite length_app. cbn [length]. rewrite length_skipn. lia. }
      split.
      * intros data' [= <-] got0 _. subst got0. rewrite Hgot. fold got.
        split; [apply terminated_app_NUL|].
        split; [apply cstr_app_NUL|].
        split.
        -- rewrite firstn_app, Nat.sub_diag, firstn_all. cbn [firstn].
           apply app_nil_r.
        -- replace (S (length got)) with (length (got ++ [C.NUL]))
             by (rewrite length_app; cbn [length]; lia).
           change (got ++ C.NUL :: skipn (length (got ++ [C.NUL])) buffer)
             with (got ++ [C.NUL] ++ skipn (length (got ++ [C.NUL])) buffer).
           rewrite app_assoc, skipn_app, Nat.sub_diag, skipn_all.
           reflexivity.
      * intros [E|[data' [[= <-] E]]]; [discriminate|].
        rewrite Hgot in E. discriminate.
Qed.

Lemma receive_keeps_buffer_witness :
  length (C.lit "junk") = 4%nat /\ (1 <= 4)%nat
  /\ exists t b,
    Server.receive_via_tcp 4 (C.lit "junk") 4 (Arrived (C.lit "HELLO")) = (t, Done b)
    /\ Client.receive_via_tcp 4 (C.lit "junk") 4 (Arrived (C.lit "HELLO")) = (t, Done b)
    /\ length b = 4%nat.
Proof.
  split; [reflexivity|]. split; [lia|].
  destruct (receive_keeps_buffer 4 (C.lit "junk") 4 (Arrived (C.lit "HELLO"))
              eq_refl ltac:(lia)) as [t [b [Hs [Hc [Hl _]]]]].
  exists t, b. repeat split; assumption.
Defined.

(** X10: [prepare_message] on a buffer of [size] bytes.  Every byte of the
    buffer is written: the first [size - 1] characters of the input, then
    NUL up to the end.  So the buffer is terminated, its string is the input
    cut at [size - 1] characters (the whole input when it is that short),
    and nothing of what the buffer held before remains. *)
Theorem prepare_message_buffer (user_input buffer : list byte) (size : nat) :
  length buffer = size -> (1 <= size)%nat ->
  let s := firstn (size - 1) (C.cstr user_input) in
  let b := s ++ repeat C.NUL (size - length s) in
  snd (Client.prepare_message user_input buffer size) = Done b
  /\ length b = size
  /\ C.cstr b = s
  /\ C.terminated b = true
  /\ ((C.strlen user_input <= size - 1)%nat -> C.cstr b = C.cstr user_input).
Proof.
  intros Hb Hm s b.
  assert (Hs : (length s <= size - 1)%nat)
    by (subst s; rewrite length_firstn; lia).
  assert (Hrep : repeat C.NUL (size - length s)
                 = repeat C.NUL (size - 1 - length s) ++ [C.NUL]).
  { rewrite repeat_snoc. f_equal. lia. }
  assert (Ht : C.no_nul s = true) by apply no_nul_firstn, no_nul_cstr.
  split.
  { unfold Client.prepare_message, printf, emit, ret. step_io.
    unfold C.strncpy. fold s.
    rewrite (skipn_last (size - 1) buffer C.NUL) by lia.
    set (pad := repeat C.NUL (size - 1 - length s)).
    assert (Hp : length (s ++ pad) = (size - 1)%nat)
      by (subst pad; rewrite length_app, repeat_length; lia).
    rewrite app_assoc, <- Hp, store_last. subst b. rewrite Hrep.
    now rewrite <- app_assoc. }
  split; [subst b; rewrite length_app, repeat_length; lia|].
  assert (Hc : C.cstr b = s).
  { subst b. rewrite C_cstr_pad by assumption. reflexivity. }
  split; [exact Hc|].
  split.
  { subst b. rewrite Hrep, app_assoc.
    change ((s ++ repeat C.NUL (size - 1 - length s)) ++ [C.NUL])
      with ((s ++ repeat C.NUL (size - 1 - length s)) ++ C.NUL :: []).
    apply terminated_app_NUL. }
  intros Hshort. rewrite Hc. subst s. apply firstn_all2. exact Hshort.
Qed.

Lemma prepare_message_buffer_witness :
  length (C.lit "junk") = 4%nat /\ (1 <= 4)%nat
  /\ snd (Client.prepare_message (C.lit "HELLO") (C.lit "junk") 4)
     = Done (C.lit "HEL" ++ [C.NUL]).
Proof.
  split; [reflexivity|]. split; [lia|].
  exact (proj1 (prepare_message_buffer (C.lit "HELLO") (C.lit "junk") 4
                  eq_refl ltac:(lia))).
Defined.

(** ** What the client prints *)

(** X8: what a connected client displays as the response is the string of
    the first 255 bytes that arrived, with its length: the bytes up to the
    first NUL among them.  When [recv] fails, or the peer closes without
    sending, it displays the empty response with length 0, prints no
    [Received] line, closes the socket and returns 0. *)
Theorem client_displays_reply (argv : list (list byte)) (e : Client.environment) :
  0 <= Client.socket_ret e -> 0 <= Client.connect_ret e ->
  let reply := match Client.arrives e with
               | RecvError => []
               | Arrived data => C.cstr (firstn 255 data)
               end in
  Exchange.shown (fst (Client.main argv e)) = reply
  /\ In (Stdout (LResponseLength (length reply))) (fst (Client.main argv e))
  /\ (Client.arrives e = RecvError \/ Client.arrives e = Arrived [] ->
      reply = []
      /\ (forall n, ~ In (Stdout (LReceived n)) (fst (Client.main argv e)))
      /\ In (Close (Client.socket_ret e)) (fst (Client.main argv e))
      /\ snd (Client.main argv e) = Done 0).
Proof.
  intros Hs Hc reply.
  assert (Hr : Server.taken (Client.arrives e) = reply).
  { subst reply. destruct (Client.arrives e) as [|data]; [reflexivity|].
    apply taken_arrived. }
  rewrite main_connected by assumption. cbn [fst snd]. rewrite Hr.
  split.
  { destruct (Client.sent e >? 0);
      destruct (Server.received (Client.arrives e) >? 0); reflexivity. }
  split.
  { apply in_or_app. right. apply in_or_app. right.
    apply in_cons, in_or_app. right. simpl. auto. }
  intros Ha.
  assert (Hn : (Server.received (Client.arrives e) >? 0) = false)
    by (destruct Ha as [-> | ->]; reflexivity).
  rewrite Hn.
  split; [subst reply; destruct Ha as [-> | ->]; reflexivity|].
  split; [|split; [|reflexivity]].
  - intros n Hin.
    destruct (Client.sent e >? 0); simpl in Hin;
      repeat (destruct Hin as [Hin|Hin]; [discriminate|]); exact Hin.
  - apply in_or_app. right. apply in_or_app. right. simpl. auto.
Qed.

Lemma client_displays_reply_witness :
  0 <= Client.socket_ret Scenario.cut_off
  /\ 0 <= Client.connect_ret Scenario.cut_off
  /\ Exchange.shown (fst (Client.main Scenario.argv_hello Scenario.cut_off)) = [].
Proof.
  split; [simpl; lia|]. split; [simpl; lia|].
  exact (proj1 (client_displays_reply Scenario.argv_hello Scenario.cut_off
                  ltac:(simpl; lia) ltac:(simpl; lia))).
Defined.

(** X9: the two lengths a connected client prints.  [Message Length] is the
    length of the whole argument; [Data Length] is the count offered to
    [send], the smaller of that length and 255.  They are equal exactly for
    arguments of at most 255 bytes; a longer argument is cut without any
    other notice. *)
Theorem client_printed_lengths (argv : list (list byte)) (e : Client.environment) :
  0 <= Client.socket_ret e -> 0 <= Client.connect_ret e ->
  let n := C.strlen (Client.choose_message argv) in
  In (Stdout (LMessageLength n)) (fst (Client.main argv e))
  /\ In (Stdout (LDataLength (Nat.min 255 n))) (fst (Client.main argv e))
  /\ length (Exchange.offered (fst (Client.main argv e))) = Nat.min 255 n
  /\ stderr (fst (Client.main argv e)) = [].
Proof.
  intros Hs Hc n.
  assert (Hreq : length (Client.request argv (Client.junk e)) = Nat.min 255 n).
  { rewrite request_chosen. apply length_firstn. }
  rewrite main_connected by assumption. cbn [fst]. rewrite Hreq.
  split; [simpl; auto|].
  split; [simpl; auto 10|].
  split; [exact Hreq|].
  destruct (Client.sent e >? 0);
    destruct (Server.received (Client.arrives e) >? 0); reflexivity.
Qed.

Lemma client_printed_lengths_witness :
  0 <= Client.socket_ret (Scenario.online [])
  /\ 0 <= Client.connect_ret (Scenario.online [])
  /\ In (Stdout (LDataLength 255))
        (fst (Client.main [C.lit "./client"; repeat "A"%byte 300]
                (Scenario.online []))).
Proof.
  split; [simpl; lia|]. split; [simpl; lia|].
  exact (proj1 (proj2 (client_printed_lengths
                         [C.lit "./client"; repeat "A"%byte 300]
                         (Scenario.online [])
                         ltac:(simpl; lia) ltac:(simpl; lia)))).
Defined.

(** ** The address of the peer in the message record *)

Section PeerAddress.

Import C.

Lemma octet_length (b : byte) :
  length (Peer.octet b)
  = if (Byte.to_nat b <? 10)%nat then 1%nat
    else if (Byte.to_nat b <? 100)%nat then 2%nat else 3%nat.
Proof. destruct b; reflexivity. Qed.

Lemma octet_length_bounds (b : byte) :
  (1 <= length (Peer.octet b) <= 3)%nat
  /\ (length (Peer.octet b) = 3%nat <-> (100 <= Byte.to_nat b)%nat).
Proof.
  rewrite octet_length.
  destruct (Nat.ltb_spec (Byte.to_nat b) 10);
    destruct (Nat.ltb_spec (Byte.to_nat b) 100); lia.
Qed.

Lemma inet_ntop_length (a : Peer.in_addr) :
  length (Peer.inet_ntop a)
  = (length (Peer.octet (Peer.b1 a)) + length (Peer.octet (Peer.b2 a))
     + length (Peer.octet (Peer.b3 a)) + length (Peer.octet (Peer.b4 a)) + 3)%nat.
Proof.
  unfold Peer.inet_ntop. rewrite !length_app.
  change (length (lit ".")) with 1%nat. lia.
Qed.

Lemma inet_ntop_no_nul (a : Peer.in_addr) : no_nul (Peer.inet_ntop a) = true.
Proof.
  unfold Peer.inet_ntop, Peer.octet.
  rewrite !no_nul_app, !no_nul_decimal. reflexivity.
Qed.

Lemma client_ip_string (a : Peer.in_addr) (junk : list byte) :
  cstr (Peer.client_ip a junk) = Peer.inet_ntop a.
Proof.
  unfold Peer.client_ip, fill. rewrite <- app_assoc, <- app_comm_cons.
  rewrite cstr_app_NUL. apply cstr_text, inet_ntop_no_nul.
Qed.

Lemma client_ip_field_bytes (a : Peer.in_addr) (junk msg_junk : list byte) :
  (length (Peer.inet_ntop a) <= 15)%nat ->
  Peer.client_ip_field a junk msg_junk
  = Peer.inet_ntop a ++ repeat NUL (15 - length (Peer.inet_ntop a))
      ++ [Peer.last_byte msg_junk].
Proof.
  intros H. unfold Peer.client_ip_field, strncpy.
  rewrite client_ip_string.
  change (Peer.INET_ADDRSTRLEN - 1)%nat with 15%nat.
  rewrite firstn_all2 by lia.
  rewrite (skipn_last 15 _ xff) by apply auto_array_length.
  reflexivity.
Qed.

End PeerAddress.

(** X11: the address of the peer in [msg.client_ip].  The text of an
    address has between 7 and 15 characters, so it fits, with its
    terminator, the 16 bytes [inet_ntop] is given.  The copy into the field
    takes 15 bytes: for a text shorter than 15 characters the field is
    terminated and [process_message] prints the address; for a text of 15
    characters, which is the case exactly when each of the four numbers is
    100 or more, no terminator is written, the last byte of the field keeps
    what the stack held, and what is printed is the address followed by
    whatever is found from that byte on. *)
Theorem client_ip_field_termination
        (a : Peer.in_addr) (junk msg_junk behind : list byte) :
  let text := Peer.inet_ntop a in
  let field := Peer.client_ip_field a junk msg_junk in
  let last := Peer.last_byte msg_junk in
  (7 <= length text <= 15)%nat
  /\ C.no_nul text = true
  /\ C.cstr (Peer.client_ip a junk) = text
  /\ length field = Peer.INET_ADDRSTRLEN
  /\ ((length text < 15)%nat ->
      C.terminated field = true
      /\ Peer.printed a junk msg_junk behind = text)
  /\ (length text = 15%nat ->
      field = text ++ [last]
      /\ C.terminated field = C.is_nul last
      /\ Peer.printed a junk msg_junk behind = text ++ C.cstr (last :: behind))
  /\ (length text = 15%nat <->
      (100 <= Byte.to_nat (Peer.b1 a))%nat /\ (100 <= Byte.to_nat (Peer.b2 a))%nat
      /\ (100 <= Byte.to_nat (Peer.b3 a))%nat /\ (100 <= Byte.to_nat (Peer.b4 a))%nat).
Proof.
  cbv zeta.
  pose proof (inet_ntop_length a) as Hlen.
  destruct (octet_length_bounds (Peer.b1 a)) as [B1 E1].
  destruct (octet_length_bounds (Peer.b2 a)) as [B2 E2].
  destruct (octet_length_bounds (Peer.b3 a)) as [B3 E3].
  destruct (octet_length_bounds (Peer.b4 a)) as [B4 E4].
  set (text := Peer.inet_ntop a) in *.
  set (field := Peer.client_ip_field a junk msg_junk).
  set (last := Peer.last_byte msg_junk).
  assert (Hb : (7 <= length text <= 15)%nat) by (clear E1 E2 E3 E4; lia).
  assert (Hfull : length text = 15%nat <->
            (100 <= Byte.to_nat (Peer.b1 a))%nat /\ (100 <= Byte.to_nat (Peer.b2 a))%nat
            /\ (100 <= Byte.to_nat (Peer.b3 a))%nat /\ (100 <= Byte.to_nat (Peer.b4 a))%nat).
  { rewrite <- E1, <- E2, <- E3, <- E4. clear E1 E2 E3 E4. split; intros; lia. }
  clear E1 E2 E3 E4.
  assert (Ht : C.no_nul text = true) by apply inet_ntop_no_nul.
  assert (Hf : field = text ++ repeat C.NUL (15 - length text) ++ [last])
    by (apply client_ip_field_bytes; exact (proj2 Hb)).
  split; [exact Hb|]. split; [exact Ht|].
  split; [apply client_ip_string|].
  split.
  { rewrite Hf, !length_app, repeat_length. cbn [length].
    unfold Peer.INET_ADDRSTRLEN. lia. }
  split; [|split].
  - intros Hshort.
    assert (Hf' : field = text ++ C.NUL :: repeat C.NUL (14 - length text) ++ [last]).
    { rewrite Hf. replace (15 - length text)%nat with (S (14 - length text)) by lia.
      reflexivity. }
    split; [rewrite Hf'; apply terminated_app_NUL|].
    unfold Peer.printed, C.string_at. fold field. rewrite Hf'.
    rewrite <- app_assoc, <- app_comm_cons, cstr_app_NUL.
    now apply cstr_text.
  - intros H15.
    assert (Hf' : field = text ++ [last])
      by (rewrite Hf, H15; reflexivity).
    split; [exact Hf'|]. split.
    + rewrite Hf'. unfold C.terminated. rewrite existsb_app.
      fold (C.terminated text). rewrite terminated_text by assumption.
      simpl. apply orb_false_r.
    + unfold Peer.printed, C.string_at. fold field. rewrite Hf'.
      rewrite <- app_assoc. cbn [app]. now apply cstr_text_app.
  - exact Hfull.
Qed.

Lemma client_ip_field_termination_witness :
  length (Peer.inet_ntop {| Peer.b1 := xc0; Peer.b2 := xa8;
                            Peer.b3 := x64; Peer.b4 := xc8 |}) = 15%nat
  /\ Peer.printed {| Peer.b1 := xc0; Peer.b2 := xa8;
                     Peer.b3 := x64; Peer.b4 := xc8 |}
       [] (C.lit "0123456789abcdef") (C.lit "HELLO")
     = C.lit "192.168.100.200fHELLO".
Proof.
  split; [reflexivity|].
  exact (proj2 (proj2 (proj1 (proj2 (proj2 (proj2 (proj2 (proj2
           (client_ip_field_termination
              {| Peer.b1 := xc0; Peer.b2 := xa8; Peer.b3 := x64; Peer.b4 := xc8 |}
              [] (C.lit "0123456789abcdef") (C.lit "HELLO")))))))
           eq_refl))).
Defined.

(** ** The connection of the client *)

(** X12: [establish_tcp_connection] returns a descriptor only for a socket
    that was created and connected: the descriptor is the one [socket]
    returned, and the calls were [socket] and [connect] on it.  In every
    other case it ends the process with status 1 after one line on standard
    error, and it does not call [connect] when there is no socket. *)
Theorem establish_tcp_connection_result (e : Client.environment) :
  (forall fd, snd (Client.establish_tcp_connection e) = Done fd ->
     fd = Client.socket_ret e
     /\ 0 <= Client.socket_ret e /\ 0 <= Client.connect_ret e
     /\ fst (Client.establish_tcp_connection e)
        = [Socket fd; Connect fd (Client.connect_ret e)])
  /\ (Client.socket_ret e < 0 \/ Client.connect_ret e < 0 ->
      snd (Client.establish_tcp_connection e) = Exited 1
      /\ length (stderr (fst (Client.establish_tcp_connection e))) = 1%nat)
  /\ (Client.socket_ret e < 0 ->
      calls (fst (Client.establish_tcp_connection e))
      = [Socket (Client.socket_ret e)]).
Proof.
  unfold Client.establish_tcp_connection, socket, connect, perror, exit,
    emit, ret.
  step_io.
  destruct (Z.ltb_spec (Client.socket_ret e) 0) as [Hs|Hs].
  - step_io. split; [discriminate|]. now split.
  - step_io. destruct (Z.ltb_spec (Client.connect_ret e) 0) as [Hc|Hc].
    + step_io. split; [discriminate|]. split; [now split|]. lia.
    + step_io. split; [|split; lia].
      intros fd [= <-]. now repeat split.
Qed.

Lemma establish_tcp_connection_result_witness :
  snd (Client.establish_tcp_connection Scenario.cut_off) = Done 3
  /\ fst (Client.establish_tcp_connection Scenario.cut_off)
     = [Socket 3; Connect 3 0].
Proof.
  split; [reflexivity|].
  exact (proj2 (proj2 (proj2
           (proj1 (establish_tcp_connection_result Scenario.cut_off) 3 eq_refl)))).
Defined.
